(** * supervision: annotators and keypoints

    A shallow embedding of [supervision/annotators/core.py] (the heatmap
    and trace annotators) and [supervision/keypoint/core.py] (the
    [Keypoints] dataclass), with the properties of their specification.

    Conventions.
    - Python integers are [Z]; pixel indices of an array are [nat].
    - A Python call that may raise returns a [result]; a method that
      mutates [self] returns the new object next to its result, so a
      mutation that happened before an exception is kept.
    - [numpy] arrays of rank two are a shape and an indexing function.
    - float64 values that only ever hold counts are [Z]; the values of
      the normalisation are exact rationals extended with the
      non-finite IEEE values. *)

From stdpp Require Import gmap list strings pretty.
From Stdlib Require Import ZArith QArith Qround Lia Lqa Bool List Permutation.
Import ListNotations.

Open Scope Z_scope.

(** ** Python exceptions *)

Inductive exn : Type :=
| TypeError
| ValueError
| IndexError
| AttributeError
| CvError.

Inductive result (A : Type) : Type :=
| Ok (a : A)
| Raise (e : exn).

Arguments Ok {A} a.
Arguments Raise {A} e.

Definition bind {A B : Type} (r : result A) (k : A -> result B) : result B :=
  match r with
  | Ok a => k a
  | Raise e => Raise e
  end.

#[global] Instance result_ret : MRet result := fun A a => Ok a.
#[global] Instance result_bind : MBind result := fun A B k r => bind r k.

Definition raises {A : Type} (r : result A) : bool :=
  match r with
  | Ok _ => false
  | Raise _ => true
  end.

(** ** Geometry: [supervision.geometry.core.Position]

    The enumeration itself is imported by the annotators; its nine
    members are the ones [HeatmapAnnotator.get_xy] dispatches on. *)

Inductive Position : Type :=
| CENTER
| CENTER_LEFT
| CENTER_RIGHT
| TOP_CENTER
| TOP_LEFT
| TOP_RIGHT
| BOTTOM_LEFT
| BOTTOM_CENTER
| BOTTOM_RIGHT.

(** A box [(x1, y1, x2, y2)] and a point [(x, y)]. *)
Definition Box : Type := (Z * Z * Z * Z)%type.
Definition Point : Type := (Z * Z)%type.

Definition bx1 (b : Box) : Z := let '(x1, _, _, _) := b in x1.
Definition by1 (b : Box) : Z := let '(_, y1, _, _) := b in y1.
Definition bx2 (b : Box) : Z := let '(_, _, x2, _) := b in x2.
Definition by2 (b : Box) : Z := let '(_, _, _, y2) := b in y2.

(** [int((a + b) / 2)]: Python's true division followed by [int], which
    drops the fractional part (rounds toward zero).  The float quotient
    is exact while [|a + b| <= 2^53], which covers pixel coordinates. *)
Definition int_half (a b : Z) : Z := Z.quot (a + b) 2.

(** ** Arrays

    A rank-two [numpy] array: its shape and its indexing function.  A
    frame of shape [(h, w, 3)] is an array of shape [(h, w)] whose
    elements are BGR triples.  Only indices inside the shape carry
    meaning. *)

Record ndarray (A : Type) : Type := mk_ndarray {
  nrows : nat;
  ncols : nat;
  px : nat -> nat -> A
}.

Arguments mk_ndarray {A} nrows ncols px.
Arguments nrows {A} n.
Arguments ncols {A} n.
Arguments px {A} n i j.

Definition shape {A : Type} (a : ndarray A) : nat * nat := (nrows a, ncols a).

(** Elementwise equality of two arrays of the same shape. *)
Definition array_eq {A : Type} (a b : ndarray A) : Prop :=
  shape a = shape b /\
  forall i j, (i < nrows a)%nat -> (j < ncols a)%nat -> px a i j = px b i j.

(** [np.zeros((h, w))] *)
Definition np_zeros (s : nat * nat) : ndarray Z :=
  mk_ndarray (fst s) (snd s) (fun _ _ => 0).

Definition array_map {A B : Type} (f : A -> B) (a : ndarray A) : ndarray B :=
  mk_ndarray (nrows a) (ncols a) (fun i j => f (px a i j)).

(** Broadcasting of one dimension: equal extents, or one of them is 1. *)
Definition broadcast_dim (a b : nat) : option nat :=
  if (a =? b)%nat then Some a
  else if (a =? 1)%nat then Some b
  else if (b =? 1)%nat then Some a
  else None.

(** The index read in an operand of extent [n] for the result index [i]. *)
Definition broadcast_idx (n i : nat) : nat := if (n =? 1)%nat then 0%nat else i.

(** [a + b] on two rank-two arrays, with numpy's broadcasting; shapes
    that do not broadcast raise [ValueError]. *)
Definition np_add (a b : ndarray Z) : result (ndarray Z) :=
  match broadcast_dim (nrows a) (nrows b), broadcast_dim (ncols a) (ncols b) with
  | Some r, Some c =>
      Ok (mk_ndarray r c (fun i j =>
            px a (broadcast_idx (nrows a) i) (broadcast_idx (ncols a) j)
            + px b (broadcast_idx (nrows b) i) (broadcast_idx (ncols b) j)))
  | _, _ => Raise ValueError
  end.

(** All the indices of an array, row by row. *)
Definition indices (h w : nat) : list (nat * nat) :=
  i ← seq 0 h; (fun j => (i, j)) <$> seq 0 w.

Definition elements {A : Type} (a : ndarray A) : list A :=
  (fun ij => px a (fst ij) (snd ij)) <$> indices (nrows a) (ncols a).

(** [a.max()]: numpy raises [ValueError] on an array without elements. *)
Definition np_max (a : ndarray Z) : result Z :=
  match elements a with
  | [] => Raise ValueError
  | x :: xs => Ok (fold_left Z.max xs x)
  end.

(** ** Detections

    [supervision.detection.core.Detections] is consumed only: a
    sequence of detections, each with its box and optional tracker
    identity and class label.  Iterating yields the detections in
    order; [detections.tracker_id[i]] is the identity of the i-th. *)

Record Detection : Type := mk_detection {
  xyxy : Box;
  class_id : option Z;
  tracker_id : option Z
}.

Definition Detections : Type := list Detection.

(** A BGR pixel of an 8-bit frame. *)
Definition BGR : Type := (Z * Z * Z)%type.
Definition Scene : Type := ndarray BGR.

(** ** float64 values of the normalisation

    [temp / temp.max() * 90] and [100 - ...] are float64 operations.
    Finite values are kept as exact rationals; a zero divisor gives the
    IEEE results numpy produces (a warning, not an exception): [nan]
    for [0 / 0] and a signed infinity otherwise.  Rounding of the three
    operations is not represented; the statements below use the values
    where the float computation is exact (count 0, count = maximum) and
    the bounds that rounding preserves. *)

Inductive f64 : Type :=
| Fin (q : Q)
| PInf
| NInf
| NaN.

(** [a / m] for two floats holding the integers [a] and [m]. *)
Definition fdiv (a m : Z) : f64 :=
  if m =? 0 then
    (if a =? 0 then NaN else if 0 <? a then PInf else NInf)
  else Fin (inject_Z a / inject_Z m)%Q.

(** [x * 90] *)
Definition fmul90 (x : f64) : f64 :=
  match x with
  | Fin q => Fin (q * 90)%Q
  | PInf => PInf
  | NInf => NInf
  | NaN => NaN
  end.

(** [100 - x] *)
Definition frsub100 (x : f64) : f64 :=
  match x with
  | Fin q => Fin (100 - q)%Q
  | PInf => NInf
  | NInf => PInf
  | NaN => NaN
  end.

(** Dropping the fractional part of a rational. *)
Definition Qtrunc (q : Q) : Z := Z.quot (Qnum q) (Z.pos (Qden q)).

(** ** External collaborators

    The OpenCV primitives the annotators call, and the one
    platform-defined numpy conversion they rely on:
    - [cv2_circle_covers c r p]: pixel [p = (x, y)] is painted by a
      filled circle of centre [c] and radius [r];
    - [cv2_GaussianBlur img k]: the smoothed values of a [uint8] image
      for a [k] by [k] kernel (the result has the shape of [img]);
    - [cv2_HSV2BGR]: colour conversion of one 8-bit pixel;
    - [cv2_addWeighted a alpha b beta gamma]: the weighted sum of two
      pixels, rounded and saturated;
    - [cv2_polylines]: an open poly-line drawn on a frame;
    - [np_uint8_of_nonfinite]: what [astype(np.uint8)] yields for a
      value that is not finite. *)

Class Backend : Type := {
  cv2_circle_covers : Point -> Z -> Point -> bool;
  cv2_GaussianBlur : ndarray Z -> Z -> result (nat -> nat -> Z);
  cv2_HSV2BGR : Z * Z * Z -> BGR;
  cv2_addWeighted : BGR -> Q -> BGR -> Q -> Q -> BGR;
  cv2_polylines : Scene -> list Point -> BGR -> Z -> Scene;
  np_uint8_of_nonfinite : f64 -> Z
}.

(** ** HeatmapAnnotator *)

Record HeatmapAnnotator : Type := mk_heatmap {
  position : option Position;
  opacity : Q;
  radius : Z;
  kernel_size : option Z;
  heatmask : option (ndarray Z)
}.

Definition set_heatmask (self : HeatmapAnnotator) (h : ndarray Z) : HeatmapAnnotator :=
  mk_heatmap (position self) (opacity self) (radius self) (kernel_size self) (Some h).

Module HeatmapAnnotator.

(** [__init__]: stores its arguments; no statement of it can raise. *)
Definition __init__ (position : option Position) (opacity : Q) (radius : Z)
    (kernel_size : option Z) : result HeatmapAnnotator :=
  Ok (mk_heatmap position opacity radius kernel_size None).

(** [get_xy(self, xyxy, position)] *)
Definition get_xy (self : HeatmapAnnotator) (xyxy : Box) (position : option Position)
    : Point :=
  match position with
  | None | Some TOP_LEFT => (bx1 xyxy, by1 xyxy)
  | Some TOP_CENTER => (int_half (bx1 xyxy) (bx2 xyxy), by1 xyxy)
  | Some TOP_RIGHT => (bx2 xyxy, by1 xyxy)
  | Some CENTER_LEFT => (bx1 xyxy, int_half (by1 xyxy) (by2 xyxy))
  | Some CENTER => (int_half (bx1 xyxy) (bx2 xyxy), int_half (by1 xyxy) (by2 xyxy))
  | Some CENTER_RIGHT => (bx2 xyxy, int_half (by1 xyxy) (by2 xyxy))
  | Some BOTTOM_LEFT => (bx1 xyxy, by2 xyxy)
  | Some BOTTOM_CENTER => (int_half (bx1 xyxy) (bx2 xyxy), by2 xyxy)
  | Some BOTTOM_RIGHT => (bx2 xyxy, by2 xyxy)
  end.

Section Annotate.
Context `{Backend}.

(** [cv2.circle(img, center, radius, color, -1)]: a filled circle;
    OpenCV rejects a negative radius. *)
Definition cv2_circle (img : ndarray Z) (center : Point) (r : Z) (color : Z)
    : result (ndarray Z) :=
  if r <? 0 then Raise CvError
  else Ok (mk_ndarray (nrows img) (ncols img) (fun i j =>
         if cv2_circle_covers center r (Z.of_nat j, Z.of_nat i)
         then color else px img i j)).

(** The loop over the detections, painting into the per-frame mask. *)
Fixpoint draw_circles (self : HeatmapAnnotator) (mask : ndarray Z)
    (detections : Detections) : result (ndarray Z) :=
  match detections with
  | [] => Ok mask
  | d :: rest =>
      mask' ← cv2_circle mask (get_xy self (xyxy d) (position self)) (radius self) 1;
      draw_circles self mask' rest
  end.

(** [astype(np.uint8)]: the fractional part is dropped. *)
Definition astype_uint8 (x : f64) : Z :=
  match x with
  | Fin q => Qtrunc q mod 256
  | _ => np_uint8_of_nonfinite x
  end.

(** One element of [100 - temp / temp.max() * 90], cast to [uint8]. *)
Definition display (m h : Z) : Z :=
  astype_uint8 (frsub100 (fmul90 (fdiv h m))).

(** [dst[...] = src] with numpy's broadcasting of [src] to [s]. *)
Definition assign_broadcast {A : Type} (src : ndarray A) (s : nat * nat)
    : result (ndarray A) :=
  if ((nrows src =? fst s)%nat || (nrows src =? 1)%nat)
     && ((ncols src =? snd s)%nat || (ncols src =? 1)%nat)
  then Ok (mk_ndarray (fst s) (snd s) (fun i j =>
             px src (broadcast_idx (nrows src) i) (broadcast_idx (ncols src) j)))
  else Raise ValueError.

(** The display field: the normalised accumulator, smoothed when a
    kernel size is configured. *)
Definition display_field (self : HeatmapAnnotator) (heat : ndarray Z)
    : result (ndarray Z) :=
  m ← np_max heat;
  let temp := array_map (display m) heat in
  match kernel_size self with
  | None => Ok temp
  | Some k =>
      f ← cv2_GaussianBlur temp k;
      Ok (mk_ndarray (nrows temp) (ncols temp) f)
  end.

(** Lines 183 to 197: everything after the accumulator update.  It
    reads [self.heatmask] and returns the frame; [self] is not an
    output. *)
Definition render (self : HeatmapAnnotator) (scene : Scene) : result Scene :=
  match heatmask self with
  | None => Raise AttributeError
  | Some heat =>
      temp ← display_field self heat;
      hue ← assign_broadcast temp (shape scene);
      let mask := array_map (fun v => 0 <? v) temp in
      let colour := array_map (fun v => cv2_HSV2BGR (v mod 256, 255, 255)) hue in
      if negb ((nrows mask =? nrows scene)%nat && (ncols mask =? ncols scene)%nat)
      then Raise IndexError
      else Ok (mk_ndarray (nrows scene) (ncols scene) (fun i j =>
                 if px mask i j
                 then cv2_addWeighted (px colour i j) (opacity self)
                        (px scene i j) (1 - opacity self)%Q 0%Q
                 else px scene i j))
  end.

(** Lines 177 to 182: lazy creation of the accumulator, the per-frame
    mask, and the addition of the mask to the accumulator.  The first
    component is the annotator as it stands when the block ends or
    raises. *)
Definition accumulate (self : HeatmapAnnotator) (scene : Scene)
    (detections : Detections) : HeatmapAnnotator * result unit :=
  let heat0 := match heatmask self with
               | None => np_zeros (shape scene)
               | Some h => h
               end in
  let self1 := set_heatmask self heat0 in
  match draw_circles self1 (np_zeros (shape scene)) detections with
  | Raise e => (self1, Raise e)
  | Ok mask =>
      match np_add mask heat0 with
      | Raise e => (self1, Raise e)
      | Ok heat1 => (set_heatmask self1 heat1, Ok tt)
      end
  end.

(** [annotate(self, scene, detections)] *)
Definition annotate (self : HeatmapAnnotator) (scene : Scene)
    (detections : Detections) : HeatmapAnnotator * result Scene :=
  let '(self', r) := accumulate self scene detections in
  (self', _ ← r; render self' scene).

End Annotate.
End HeatmapAnnotator.

(** ** Keypoints

    The fields are annotated [np.ndarray] and [Optional[np.ndarray]];
    validation reads nothing but shapes, so an array argument is given
    by its shape (any rank). *)

Definition Shape : Type := list nat.

(** [len(a)] of an array: its first extent; a rank-zero array has no
    length. *)
Definition py_len (a : Shape) : result nat :=
  match a with
  | [] => Raise TypeError
  | n :: _ => Ok n
  end.

(** [a[0]], used only where [len(a) > 0]. *)
Definition getitem0 (a : Shape) : Shape := tail a.

Definition shape_eqb (a b : Shape) : bool := bool_decide (a = b).

(** [_validate_keypoint_structure(keypoint, n, m)] *)
Definition _validate_keypoint_structure (keypoint : Shape) (n m : nat) : result unit :=
  let is_valid := shape_eqb keypoint [n; m; 2%nat] || shape_eqb keypoint [n; m; 3%nat] in
  if negb is_valid then Raise ValueError else Ok tt.

(** [_validate_confidence(confidence, n, m)] *)
Definition _validate_confidence (confidence : option Shape) (n m : nat) : result unit :=
  match confidence with
  | None => Ok tt
  | Some c =>
      let is_valid := shape_eqb c [n; m] in
      if negb is_valid then Raise ValueError else Ok tt
  end.

Record Keypoints : Type := mk_keypoints {
  keypoints : Shape;
  confidence : option Shape
}.

Module Keypoints.

(** [__post_init__] *)
Definition __post_init__ (self : Keypoints) : result unit :=
  n ← py_len (keypoints self);
  m ← (if (0 <? n)%nat then py_len (getitem0 (keypoints self)) else Ok 0%nat);
  _ ← _validate_keypoint_structure (keypoints self) n m;
  _validate_confidence (confidence self) n m.

(** [Keypoints(keypoints, confidence)]: the generated [__init__] stores
    the fields and runs [__post_init__]; when that raises, the caller
    receives no instance. *)
Definition new (keypoints : Shape) (confidence : option Shape) : result Keypoints :=
  let self := mk_keypoints keypoints confidence in
  _ ← __post_init__ self;
  Ok self.

(** [Keypoints.empty()] *)
Definition empty : result Keypoints :=
  new [0; 0; 2]%nat (Some [0; 0]%nat).

(** [len(self)] *)
Definition __len__ (self : Keypoints) : result nat := py_len (keypoints self).

End Keypoints.

(** ** Trace: the identity history buffer

    [TraceAnnotator] imports [Trace] from [supervision.annotators.utils]
    and uses its constructor, [put] and [get]. *)

Record Trace : Type := mk_trace {
  max_size : Z;
  anchor : Position;
  history : gmap Z (list Point)
}.

Module Trace.

(** Modelled from the spec: the anchor point of the buffer, of which
    only the call sites are in the sources.  Nine positions relative to
    the box (four corners, four edge midpoints, the centroid), midpoints
    truncated to integer pixels. *)
Definition anchor_point (p : Position) (b : Box) : Point :=
  let left := bx1 b in
  let right := bx2 b in
  let top := by1 b in
  let bottom := by2 b in
  let mid_x := int_half left right in
  let mid_y := int_half top bottom in
  match p with
  | TOP_LEFT => (left, top)
  | TOP_CENTER => (mid_x, top)
  | TOP_RIGHT => (right, top)
  | CENTER_LEFT => (left, mid_y)
  | CENTER => (mid_x, mid_y)
  | CENTER_RIGHT => (right, mid_y)
  | BOTTOM_LEFT => (left, bottom)
  | BOTTOM_CENTER => (mid_x, bottom)
  | BOTTOM_RIGHT => (right, bottom)
  end.

(** Modelled from the spec: the constructor of [Trace], absent from the
    sources.  A capacity [trace_length <= 0] is a configuration error
    reported at construction; the buffer starts without identities. *)
Definition __init__ (max_size : Z) (anchor : Position) : result Trace :=
  if max_size <=? 0 then Raise ValueError
  else Ok (mk_trace max_size anchor ∅).

(** Modelled from the spec: [get(identity)], absent from the sources.
    The points stored for the identity, oldest first; empty for an
    identity never seen.  It leaves the buffer as it is. *)
Definition get (self : Trace) (tracker_id : Z) : list Point :=
  default [] (history self !! tracker_id).

(** Modelled from the spec: the append of one point to one identity's
    sequence, absent from the sources.  The oldest point is evicted
    when the sequence is already at [trace_length]. *)
Definition append (self : Trace) (tracker_id : Z) (p : Point) : Trace :=
  let old := get self tracker_id in
  let kept := if max_size self <=? Z.of_nat (length old) then tail old else old in
  mk_trace (max_size self) (anchor self) (<[tracker_id := kept ++ [p]]> (history self)).

(** Modelled from the spec: [put(detections_for_frame)], absent from the
    sources.  Every detection carrying a tracker identity has its
    anchor point appended to that identity's sequence; a detection
    without identity is ignored. *)
Definition put (self : Trace) (detections : Detections) : Trace :=
  fold_left (fun tr d =>
               match tracker_id d with
               | Some id => append tr id (anchor_point (anchor tr) (xyxy d))
               | None => tr
               end) detections self.

End Trace.

(** ** TraceAnnotator *)

(** [supervision.annotators.utils.ColorMap]: the strategies named by
    the docstrings, built from their string. *)
Inductive ColorMap : Type :=
| INDEX
| CLASS
| TRACK.

Definition ColorMap_of_string (s : string) : result ColorMap :=
  if String.eqb s "index" then Ok INDEX
  else if String.eqb s "class" then Ok CLASS
  else if String.eqb s "track" then Ok TRACK
  else Raise ValueError.

(** The colour collaborators of [supervision.annotators.utils] and
    [supervision.draw.color]: the colour (or palette) type, the index a
    detection resolves to under a strategy, and the BGR triple of a
    colour at an index ([resolve_color(...).as_bgr()]). *)
Class Colours : Type := {
  ColourSpec : Type;
  resolve_color_idx : Detections -> nat -> ColorMap -> Z;
  resolve_color : ColourSpec -> Z -> BGR
}.

Record TraceAnnotator {C : Colours} : Type := mk_trace_annotator {
  color : ColourSpec;
  trace_position : option Position;
  trace : Trace;
  thickness : Z;
  color_map : ColorMap
}.

Arguments mk_trace_annotator {C} color trace_position trace thickness color_map.

(** [int(x)] of an optional integer: [int(None)] raises [TypeError]. *)
Definition py_int (x : option Z) : result Z :=
  match x with
  | Some z => Ok z
  | None => Raise TypeError
  end.

Module TraceAnnotator.
Section Annotate.
Context `{Backend} `{Colours}.

(** The anchor [Trace] falls back on when none is passed: the
    annotator constructs [Trace(max_size=trace_length)]. *)
Definition default_anchor : Position := CENTER.

(** [__init__] *)
Definition __init__ (color : ColourSpec) (position : option Position)
    (trace_length : Z) (thickness : Z) (color_map : string) : result TraceAnnotator :=
  tr ← Trace.__init__ trace_length default_anchor;
  cm ← ColorMap_of_string color_map;
  Ok (mk_trace_annotator color position tr thickness cm).

(** The loop of [annotate] from detection [detection_idx] on; [todo]
    are the detections not yet visited. *)
Fixpoint draw_traces (self : TraceAnnotator) (detections : Detections)
    (detection_idx : nat) (todo : Detections) (scene : Scene) : result Scene :=
  match todo with
  | [] => Ok scene
  | d :: rest =>
      tid ← py_int (tracker_id d);
      let idx := resolve_color_idx detections detection_idx (color_map self) in
      let bgr := resolve_color (color self) idx in
      let xy := Trace.get (trace self) tid in
      let scene' := if (1 <? length xy)%nat
                    then cv2_polylines scene xy bgr (thickness self)
                    else scene in
      draw_traces self detections (S detection_idx) rest scene'
  end.

(** [annotate(self, scene, detections)] *)
Definition annotate (self : TraceAnnotator) (scene : Scene) (detections : Detections)
    : TraceAnnotator * result Scene :=
  let self' := mk_trace_annotator (color self) (trace_position self)
                 (Trace.put (trace self) detections) (thickness self) (color_map self) in
  (self', draw_traces self' detections 0 detections scene).

End Annotate.
End TraceAnnotator.

(** ** A reference backend

    Concrete collaborators, used to run the annotators on small frames.
    Disks are Euclidean, colours follow the sector formula of the HSV
    cone with OpenCV's 8-bit ranges (hue in 0..179), the weighted sum
    is rounded to nearest and saturated, and a non-finite value casts
    to 0 as on x86-64.  Smoothing checks the kernel size as OpenCV does
    and applies the degenerate kernel (weights are not represented);
    poly-lines mark their vertices.  The runs below configure no
    kernel. *)

Module Reference.

Definition sq (z : Z) : Z := z * z.

Definition circle_covers (c : Point) (r : Z) (p : Point) : bool :=
  sq (fst p - fst c) + sq (snd p - snd c) <=? sq r.

Definition GaussianBlur (img : ndarray Z) (k : Z) : result (nat -> nat -> Z) :=
  if (0 <? k) && Z.odd k then Ok (px img) else Raise CvError.

(** Rounding to the nearest integer. *)
Definition Qround (q : Q) : Z := Qfloor (q + (1 # 2))%Q.

Definition saturate_u8 (z : Z) : Z := Z.max 0 (Z.min 255 z).

Definition HSV2BGR (hsv : Z * Z * Z) : BGR :=
  let '(h, s, v) := hsv in
  let sector := (h mod 180) / 30 in
  let f := (inject_Z (h mod 180) / 30 - inject_Z sector)%Q in
  let s' := (inject_Z s / 255)%Q in
  let v' := inject_Z v in
  let p := Qround (v' * (1 - s'))%Q in
  let q := Qround (v' * (1 - s' * f))%Q in
  let t := Qround (v' * (1 - s' * (1 - f)))%Q in
  match sector with
  | 0 => (p, t, v)
  | 1 => (p, v, q)
  | 2 => (t, v, p)
  | 3 => (v, q, p)
  | 4 => (v, p, t)
  | _ => (q, p, v)
  end.

Definition addWeighted (a : BGR) (alpha : Q) (b : BGR) (beta gamma : Q) : BGR :=
  let mix x y := saturate_u8 (Qround (inject_Z x * alpha + inject_Z y * beta + gamma)%Q) in
  let '(a0, a1, a2) := a in
  let '(b0, b1, b2) := b in
  (mix a0 b0, mix a1 b1, mix a2 b2).

Definition polylines (scene : Scene) (pts : list Point) (c : BGR) (thickness : Z) : Scene :=
  mk_ndarray (nrows scene) (ncols scene) (fun i j =>
    if bool_decide ((Z.of_nat j, Z.of_nat i) ∈ pts) then c else px scene i j).

#[export] Instance backend : Backend := {|
  cv2_circle_covers := circle_covers;
  cv2_GaussianBlur := GaussianBlur;
  cv2_HSV2BGR := HSV2BGR;
  cv2_addWeighted := addWeighted;
  cv2_polylines := polylines;
  np_uint8_of_nonfinite := fun _ => 0
|}.

(** A single fixed colour, and the index of a detection under each
    strategy (its position, its class label, its tracker identity). *)
#[export] Instance colours : Colours := {|
  ColourSpec := BGR;
  resolve_color_idx := fun detections idx cm =>
    match cm, detections !! idx with
    | CLASS, Some d => default (Z.of_nat idx) (class_id d)
    | TRACK, Some d => default (Z.of_nat idx) (tracker_id d)
    | _, _ => Z.of_nat idx
    end;
  resolve_color := fun c _ => c
|}.

(** A frame of one colour. *)
Definition solid (h w : nat) (c : BGR) : Scene := mk_ndarray h w (fun _ _ => c).

(** A detection that only has a box. *)
Definition boxed (b : Box) : Detection := mk_detection b None None.

(** A detection with a box and a tracker identity. *)
Definition tracked (b : Box) (id : Z) : Detection := mk_detection b None (Some id).

End Reference.

(** ** Vocabulary of the statements *)

(** The last [n] elements of a list, in order. *)
Definition lastn {A : Type} (n : nat) (l : list A) : list A :=
  drop (length l - n) l.

(** The anchor points put for identity [id] by a run of detections, in
    order of arrival. *)
Definition points_put (a : Position) (id : Z) (detections : Detections) : list Point :=
  omap (fun d => if bool_decide (tracker_id d = Some id)
                 then Some (Trace.anchor_point a (xyxy d)) else None) detections.

(** The buffer after a sequence of frames, one [put] per frame. *)
Definition put_frames (tr : Trace) (frames : list Detections) : Trace :=
  fold_left Trace.put frames tr.

Definition has_identity (d : Detection) : bool :=
  match tracker_id d with
  | Some _ => true
  | None => false
  end.

(** The pixel of row [i], column [j] of the frame a call returned. *)
Definition returned_pixel (r : result Scene) (i j : nat) : option BGR :=
  match r with
  | Ok scene => Some (px scene i j)
  | Raise _ => None
  end.

Section HeatVocabulary.
Context `{Backend}.

(** The accumulator an [annotate] call starts from. *)
Definition initial_heat (self : HeatmapAnnotator) (scene : Scene) : ndarray Z :=
  match heatmask self with
  | None => np_zeros (shape scene)
  | Some h => h
  end.

(** The disk of detection [d] covers the pixel of row [i], column [j]. *)
Definition covers (self : HeatmapAnnotator) (d : Detection) (i j : nat) : bool :=
  cv2_circle_covers (HeatmapAnnotator.get_xy self (xyxy d) (position self))
    (radius self) (Z.of_nat j, Z.of_nat i).

(** Some disk of the frame covers the pixel. *)
Definition covered (self : HeatmapAnnotator) (detections : Detections) (i j : nat) : bool :=
  existsb (fun d => covers self d i j) detections.

(** The number of (detection, frame) pairs whose disk covers the pixel. *)
Definition coverings (self : HeatmapAnnotator) (frames : list Detections) (i j : nat) : nat :=
  list_sum (map (fun ds => length (filter (fun d => covers self d i j) ds)) frames).

(** The number of frames in which some disk covers the pixel. *)
Definition frames_covering (self : HeatmapAnnotator) (frames : list Detections)
    (i j : nat) : nat :=
  length (filter (fun ds => covered self ds i j) frames).

(** The annotator after a sequence of [annotate] calls, whether they
    returned or raised. *)
Definition feed (self : HeatmapAnnotator) (frames : list (Scene * Detections))
    : HeatmapAnnotator :=
  fold_left (fun s f => fst (HeatmapAnnotator.annotate s (fst f) (snd f))) frames self.

(** The annotators a program can hold: a constructed one, and what any
    [annotate] call leaves behind. *)
Inductive reachable : HeatmapAnnotator -> Prop :=
| reach_init (pos : option Position) (op : Q) (r : Z) (k : option Z)
    (self : HeatmapAnnotator) :
    HeatmapAnnotator.__init__ pos op r k = Ok self -> reachable self
| reach_annotate (self : HeatmapAnnotator) (scene : Scene) (detections : Detections) :
    reachable self ->
    reachable (fst (HeatmapAnnotator.annotate self scene detections)).

(** The accumulator, once created, has shape [s]. *)
Definition fits (self : HeatmapAnnotator) (s : nat * nat) : Prop :=
  forall h, heatmask self = Some h -> shape h = s.

(** The value of the accumulator at a pixel; 0 before it is created. *)
Definition heat_at (self : HeatmapAnnotator) (i j : nat) : Z :=
  match heatmask self with
  | Some h => px h i j
  | None => 0
  end.

(** What line 194 writes where the mask holds: the colour of display
    value [v] blended with the base pixel. *)
Definition blend (self : HeatmapAnnotator) (v : Z) (base : BGR) : BGR :=
  cv2_addWeighted (cv2_HSV2BGR (v mod 256, 255, 255)) (opacity self)
    base (1 - opacity self)%Q 0%Q.

End HeatVocabulary.

(** ** The other annotators

    Further OpenCV primitives, called by the label, corner, circle and
    blur annotators; [class_text] is the text of
    [f"{detections.class_id[i]}"]. *)

Class Drawing : Type := {
  cv2_rectangle : Scene -> Point -> Point -> BGR -> Z -> Scene;
  cv2_line : Scene -> Point -> Point -> BGR -> Z -> Scene;
  cv2_circle_outline : Scene -> Point -> Z -> BGR -> Z -> Scene;
  cv2_putText : Scene -> string -> Point -> Q -> BGR -> Z -> Scene;
  cv2_getTextSize : string -> Q -> Z -> Z * Z;
  cv2_blur : ndarray BGR -> Z -> result (nat -> nat -> BGR);
  class_text : option Z -> result string
}.

(** *** LabelAnnotator *)

Record LabelAnnotator {C : Colours} : Type := mk_label_annotator {
  label_color : ColourSpec;
  text_color : BGR;
  text_scale : Q;
  text_thickness : Z;
  text_padding : Z;
  text_position : Position;
  label_color_map : ColorMap
}.

Arguments mk_label_annotator {C} label_color text_color text_scale text_thickness
  text_padding text_position label_color_map.

Module LabelAnnotator.

(** [resolve_text_background_xyxy]: seven positions have a branch; for
    the other two the function falls off its end and returns [None].
    [//] is floor division. *)
Definition resolve_text_background_xyxy (detection_xyxy : Box) (text_wh : Z * Z)
    (text_padding : Z) (position : Position) : option Box :=
  let padded_text_wh := (fst text_wh + 2 * text_padding, snd text_wh + 2 * text_padding) in
  let '(x1, y1, x2, y2) := detection_xyxy in
  let center_x := (x1 + x2) / 2 in
  let center_y := (y1 + y2) / 2 in
  match position with
  | TOP_LEFT => Some (x1, y1 - snd padded_text_wh, x1 + fst padded_text_wh, y1)
  | TOP_RIGHT => Some (x2 - fst padded_text_wh, y1 - snd padded_text_wh, x2, y1)
  | TOP_CENTER =>
      Some (center_x - fst padded_text_wh / 2, y1 - snd padded_text_wh,
            center_x + fst padded_text_wh / 2, y1)
  | CENTER =>
      Some (center_x - fst padded_text_wh / 2, center_y - snd padded_text_wh / 2,
            center_x + fst padded_text_wh / 2, center_y + snd padded_text_wh / 2)
  | BOTTOM_LEFT => Some (x1, y2, x1 + fst padded_text_wh, y2 + snd padded_text_wh)
  | BOTTOM_RIGHT => Some (x2 - fst padded_text_wh, y2, x2, y2 + snd padded_text_wh)
  | BOTTOM_CENTER =>
      Some (center_x - fst padded_text_wh / 2, y2,
            center_x + fst padded_text_wh / 2, y2 + snd padded_text_wh)
  | CENTER_LEFT | CENTER_RIGHT => None
  end.

(** [box[k]] on the value [resolve_text_background_xyxy] returned:
    subscripting [None] raises [TypeError]. *)
Definition subscript (box : option Box) : result Box :=
  match box with
  | Some b => Ok b
  | None => Raise TypeError
  end.

(** Where the text is put: [(text_x, text_y)] of lines 657 and 658. *)
Definition text_origin (background : Box) (text_wh : Z * Z) (text_padding : Z) : Point :=
  (bx1 background + text_padding, by1 background + text_padding + snd text_wh).

Section Annotate.
Context `{Drawing} `{Colours}.

(** The text of detection [detection_idx]: the custom label when labels
    are given and there are as many of them as detections, the class
    label otherwise. *)
Definition label_text (detections : Detections) (labels : option (list string))
    (detection_idx : nat) (d : Detection) : result string :=
  match labels with
  | None => class_text (class_id d)
  | Some ls =>
      if negb (length detections =? length ls)%nat then class_text (class_id d)
      else match ls !! detection_idx with
           | Some s => Ok s
           | None => Raise IndexError
           end
  end.

(** The loop of [annotate] from detection [detection_idx] on. *)
Fixpoint draw_labels (self : LabelAnnotator) (detections : Detections)
    (labels : option (list string)) (detection_idx : nat) (todo : Detections)
    (scene : Scene) : result Scene :=
  match todo with
  | [] => Ok scene
  | d :: rest =>
      let detection_xyxy := xyxy d in
      let idx := resolve_color_idx detections detection_idx (label_color_map self) in
      let bgr := resolve_color (label_color self) idx in
      text ← label_text detections labels detection_idx d;
      let text_wh := cv2_getTextSize text (text_scale self) (text_thickness self) in
      let text_background_xyxy :=
        resolve_text_background_xyxy detection_xyxy text_wh (text_padding self)
          (text_position self) in
      background ← subscript text_background_xyxy;
      let origin := text_origin background text_wh (text_padding self) in
      let scene1 := cv2_rectangle scene (bx1 background, by1 background)
                      (bx2 background, by2 background) bgr (-1) in
      let scene2 := cv2_putText scene1 text origin (text_scale self) (text_color self)
                      (text_thickness self) in
      draw_labels self detections labels (S detection_idx) rest scene2
  end.

(** [annotate(self, scene, detections, labels)] *)
Definition annotate (self : LabelAnnotator) (scene : Scene) (detections : Detections)
    (labels : option (list string)) : result Scene :=
  draw_labels self detections labels 0 detections scene.

End Annotate.
End LabelAnnotator.

(** *** BoxCornerAnnotator *)

Record BoxCornerAnnotator {C : Colours} : Type := mk_corner_annotator {
  corner_color : ColourSpec;
  corner_thickness : Z;
  corner_length : Z;
  corner_color_map : ColorMap
}.

Arguments mk_corner_annotator {C} corner_color corner_thickness corner_length
  corner_color_map.

Module BoxCornerAnnotator.

(** The two strokes of one corner [(x, y)] of the box: the horizontal
    one, then the vertical one, each from the corner to its end. *)
Definition corner_strokes (b : Box) (length : Z) (corner : Point)
    : list (Point * Point) :=
  let '(x, y) := corner in
  let x_end := if x =? bx1 b then x + length else x - length in
  let y_end := if y =? by1 b then y + length else y - length in
  [((x, y), (x_end, y)); ((x, y), (x, y_end))].

(** The corners in the order of the loop, and all the strokes of a box. *)
Definition corners (b : Box) : list Point :=
  [(bx1 b, by1 b); (bx2 b, by1 b); (bx1 b, by2 b); (bx2 b, by2 b)].

Definition strokes (b : Box) (length : Z) : list (Point * Point) :=
  c ← corners b; corner_strokes b length c.

Section Annotate.
Context `{Drawing} `{Colours}.

Fixpoint draw_corners (self : BoxCornerAnnotator) (detections : Detections)
    (detection_idx : nat) (todo : Detections) (scene : Scene) : Scene :=
  match todo with
  | [] => scene
  | d :: rest =>
      let idx := resolve_color_idx detections detection_idx (corner_color_map self) in
      let bgr := resolve_color (corner_color self) idx in
      let scene' :=
        fold_left (fun sc s => cv2_line sc (fst s) (snd s) bgr (corner_thickness self))
          (strokes (xyxy d) (corner_length self)) scene in
      draw_corners self detections (S detection_idx) rest scene'
  end.

(** [annotate(self, scene, detections)] *)
Definition annotate (self : BoxCornerAnnotator) (scene : Scene) (detections : Detections)
    : Scene :=
  draw_corners self detections 0 detections scene.

End Annotate.
End BoxCornerAnnotator.

(** *** CircleAnnotator *)

Module CircleAnnotator.

(** The centre of the circle: floor division of the coordinate sums. *)
Definition center (b : Box) : Point :=
  ((bx1 b + bx2 b) / 2, (by1 b + by2 b) / 2).

(** [int(sqrt(...))]: the integer part of the distance from the centre
    to the top-left corner.  [math.sqrt] is correctly rounded, so the
    integer part is the integer square root for pixel coordinates. *)
Definition circle_radius (b : Box) : Z :=
  let c := center b in
  Z.sqrt ((bx1 b - fst c) * (bx1 b - fst c) + (by1 b - snd c) * (by1 b - snd c)).

Section Annotate.
Context `{Drawing} `{Colours}.

(** [annotate(self, scene, detections)], [self] being the colour, the
    thickness and the colour strategy. *)
Fixpoint draw_circles (color : ColourSpec) (thickness : Z) (color_map : ColorMap)
    (detections : Detections) (detection_idx : nat) (todo : Detections)
    (scene : Scene) : Scene :=
  match todo with
  | [] => scene
  | d :: rest =>
      let idx := resolve_color_idx detections detection_idx color_map in
      let bgr := resolve_color color idx in
      let scene' := cv2_circle_outline scene (center (xyxy d)) (circle_radius (xyxy d))
                      bgr thickness in
      draw_circles color thickness color_map detections (S detection_idx) rest scene'
  end.

Definition annotate (color : ColourSpec) (thickness : Z) (color_map : ColorMap)
    (scene : Scene) (detections : Detections) : Scene :=
  draw_circles color thickness color_map detections 0 detections scene.

End Annotate.
End CircleAnnotator.

(** *** BlurAnnotator *)

Module BlurAnnotator.

(** One bound of a Python slice over an axis of extent [len]: a negative
    bound counts from the end; bounds are clamped to the axis. *)
Definition slice_bound (v : Z) (len : nat) : nat :=
  if v <? 0 then Z.to_nat (Z.max (v + Z.of_nat len) 0)
  else Z.to_nat (Z.min v (Z.of_nat len)).

(** Index [i] lies in the slice [lo:hi] of an axis of extent [len]. *)
Definition in_slice (lo hi : Z) (len i : nat) : bool :=
  (slice_bound lo len <=? i)%nat && (i <? slice_bound hi len)%nat.

(** [scene[y1:y2, x1:x2]] *)
Definition roi (scene : Scene) (b : Box) : ndarray BGR :=
  let r0 := slice_bound (by1 b) (nrows scene) in
  let r1 := slice_bound (by2 b) (nrows scene) in
  let c0 := slice_bound (bx1 b) (ncols scene) in
  let c1 := slice_bound (bx2 b) (ncols scene) in
  mk_ndarray (r1 - r0) (c1 - c0) (fun i j => px scene (r0 + i) (c0 + j)).

(** [scene[y1:y2, x1:x2] = values], the values having the shape of the
    slice. *)
Definition write_roi (scene : Scene) (b : Box) (values : nat -> nat -> BGR) : Scene :=
  let r0 := slice_bound (by1 b) (nrows scene) in
  let c0 := slice_bound (bx1 b) (ncols scene) in
  mk_ndarray (nrows scene) (ncols scene) (fun i j =>
    if in_slice (by1 b) (by2 b) (nrows scene) i
       && in_slice (bx1 b) (bx2 b) (ncols scene) j
    then values (i - r0)%nat (j - c0)%nat
    else px scene i j).

Section Annotate.
Context `{Drawing}.

(** [annotate(self, scene, detections)], [self] being its kernel size. *)
Fixpoint annotate (kernel_size : Z) (scene : Scene) (detections : Detections)
    : result Scene :=
  match detections with
  | [] => Ok scene
  | d :: rest =>
      blurred ← cv2_blur (roi scene (xyxy d)) kernel_size;
      annotate kernel_size (write_roi scene (xyxy d) blurred) rest
  end.

End Annotate.
End BlurAnnotator.

(** *** MaskAnnotator

    [detections.mask] is absent or holds one boolean mask per
    detection, and [detections.area] one area per detection; both are
    passed next to the detections.  [np_argsort] is numpy's [argsort],
    whose order among equal areas numpy does not fix. *)

Class Sorting : Type := {
  np_argsort : list Q -> list nat
}.

Record MaskAnnotator {C : Colours} : Type := mk_mask_annotator {
  mask_color : ColourSpec;
  mask_opacity : Q;
  mask_color_map : ColorMap
}.

Arguments mk_mask_annotator {C} mask_color mask_opacity mask_color_map.

Module MaskAnnotator.

(** One channel of [np.uint8(opacity * colour + (1 - opacity) * base)]:
    the fractional part is dropped. *)
Definition mix (opacity : Q) (colour base : Z) : Z :=
  Qtrunc (opacity * inject_Z colour + (1 - opacity) * inject_Z base)%Q mod 256.

Definition mix_bgr (opacity : Q) (colour base : BGR) : BGR :=
  let '(c0, c1, c2) := colour in
  let '(b0, b1, b2) := base in
  (mix opacity c0 b0, mix opacity c1 b1, mix opacity c2 b2).

(** [np.where(np.expand_dims(mask, axis=-1), blended, scene)], the
    mask broadcast against the frame. *)
Definition paint (opacity : Q) (colour : BGR) (mask : ndarray bool) (scene : Scene)
    : result Scene :=
  match broadcast_dim (nrows mask) (nrows scene),
        broadcast_dim (ncols mask) (ncols scene) with
  | Some r, Some c =>
      Ok (mk_ndarray r c (fun i j =>
            let base := px scene (broadcast_idx (nrows scene) i)
                          (broadcast_idx (ncols scene) j) in
            if px mask (broadcast_idx (nrows mask) i) (broadcast_idx (ncols mask) j)
            then mix_bgr opacity colour base
            else base))
  | _, _ => Raise ValueError
  end.

Section Annotate.
Context `{Sorting} `{Colours}.

(** The loop of [annotate] over the detection indices [order]. *)
Fixpoint paint_masks (self : MaskAnnotator) (detections : Detections)
    (masks : list (ndarray bool)) (order : list nat) (scene : Scene) : result Scene :=
  match order with
  | [] => Ok scene
  | detection_idx :: rest =>
      let idx := resolve_color_idx detections detection_idx (mask_color_map self) in
      let bgr := resolve_color (mask_color self) idx in
      match masks !! detection_idx with
      | None => Raise IndexError
      | Some mask =>
          scene' ← paint (mask_opacity self) bgr mask scene;
          paint_masks self detections masks rest scene'
      end
  end.

(** [annotate(self, scene, detections)] *)
Definition annotate (self : MaskAnnotator) (scene : Scene) (detections : Detections)
    (mask : option (list (ndarray bool))) (area : list Q) : result Scene :=
  match mask with
  | None => Ok scene
  | Some masks => paint_masks self detections masks (rev (np_argsort area)) scene
  end.

End Annotate.
End MaskAnnotator.

(** *** Keypoints from MediaPipe *)

(** A landmark of [mediapipe_results.pose_landmarks]. *)
Record Landmark : Type := mk_landmark {
  landmark_x : Q;
  landmark_y : Q;
  landmark_z : Q;
  visibility : Q
}.

(** The shape of [np.array(rows)], the rows being array-likes of the
    given shapes: rows of one shape stack; rows of different shapes do
    not make a rectangular array ([ValueError]). *)
Definition np_array_shape (rows : list Shape) : result Shape :=
  match rows with
  | [] => Ok [0%nat]
  | s :: rest =>
      if forallb (shape_eqb s) rest then Ok (length rows :: s)
      else Raise ValueError
  end.

(** [np.array] of a list of lists of numbers, and of a list of lists of
    lists of numbers. *)
Definition np_array2 (rows : list (list Q)) : result Shape :=
  np_array_shape (map (fun r => [length r]) rows).

Definition np_array3 (rows : list (list (list Q))) : result Shape :=
  shapes ← mapM np_array2 rows;
  np_array_shape shapes.

(** [Keypoints.from_mediapipe]: each pose gives a row of [x, y, z]
    triples and a row of visibilities. *)
Definition from_mediapipe (pose_landmarks : list (list Landmark)) : result Keypoints :=
  let xyz := map (fun pose =>
                    map (fun item => [landmark_x item; landmark_y item; landmark_z item])
                      pose) pose_landmarks in
  let confidence := map (fun pose => map visibility pose) pose_landmarks in
  kp ← np_array3 xyz;
  c ← np_array2 confidence;
  Keypoints.new kp (Some c).

(** ** Runs of the trace annotator *)

Section TraceRuns.
Context `{Backend} `{Colours}.

(** The annotator after a sequence of [annotate] calls, and what the
    last call returned. *)
Definition trace_feed (self : TraceAnnotator) (frames : list (Scene * Detections))
    : TraceAnnotator :=
  fold_left (fun s f => fst (TraceAnnotator.annotate s (fst f) (snd f))) frames self.

End TraceRuns.

(** ** Vocabulary of the further statements *)

(** The side of the detection a label position puts the text on. *)
Definition on_top (p : Position) : bool :=
  match p with TOP_LEFT | TOP_CENTER | TOP_RIGHT => true | _ => false end.

Definition at_bottom (p : Position) : bool :=
  match p with BOTTOM_LEFT | BOTTOM_CENTER | BOTTOM_RIGHT => true | _ => false end.

Definition at_left (p : Position) : bool :=
  match p with TOP_LEFT | BOTTOM_LEFT => true | _ => false end.

Definition at_right (p : Position) : bool :=
  match p with TOP_RIGHT | BOTTOM_RIGHT => true | _ => false end.

(** The pixel of row [i], column [j] lies in the half-open box. *)
Definition in_box (b : Box) (i j : nat) : bool :=
  (by1 b <=? Z.of_nat i) && (Z.of_nat i <? by2 b)
  && (bx1 b <=? Z.of_nat j) && (Z.of_nat j <? bx2 b).

(** A point lies in the closed box. *)
Definition in_closed_box (b : Box) (p : Point) : Prop :=
  bx1 b <= fst p <= bx2 b /\ by1 b <= snd p <= by2 b.

(** Plain collaborators, to run the other annotators: drawing marks
    the end points it is given, a text is 8 pixels wide per character
    and 12 high, smoothing requires a non-empty region and a positive
    kernel and applies the degenerate kernel, and a class label prints
    in decimal. *)
Module Plain.

Definition mark (scene : Scene) (pts : list Point) (c : BGR) : Scene :=
  mk_ndarray (nrows scene) (ncols scene) (fun i j =>
    if bool_decide ((Z.of_nat j, Z.of_nat i) ∈ pts) then c else px scene i j).

Definition blur (roi : ndarray BGR) (k : Z) : result (nat -> nat -> BGR) :=
  if (0 <? k) && negb ((nrows roi =? 0)%nat || (ncols roi =? 0)%nat)
  then Ok (px roi) else Raise CvError.

Definition decimal (c : option Z) : result string :=
  match c with
  | Some z => Ok (pretty z)
  | None => Raise TypeError
  end.

(** A stable [argsort] by insertion. *)
Fixpoint insert_by_area (x : Q * nat) (l : list (Q * nat)) : list (Q * nat) :=
  match l with
  | [] => [x]
  | y :: rest => if Qle_bool (fst y) (fst x) then y :: insert_by_area x rest
                 else x :: l
  end.

Definition argsort (area : list Q) : list nat :=
  map snd (fold_left (fun acc x => insert_by_area x acc)
             (combine area (seq 0 (length area))) []).

#[export] Instance sorting : Sorting := {| np_argsort := argsort |}.

#[export] Instance drawing : Drawing := {|
  cv2_rectangle := fun scene p q c _ => mark scene [p; q] c;
  cv2_line := fun scene p q c _ => mark scene [p; q] c;
  cv2_circle_outline := fun scene p _ c _ => mark scene [p] c;
  cv2_putText := fun scene _ p _ c _ => mark scene [p] c;
  cv2_getTextSize := fun text _ _ => (8 * Z.of_nat (String.length text), 12);
  cv2_blur := blur;
  class_text := decimal
|}.

End Plain.

(** * Properties *)

(** ** Anchor points *)

Lemma int_half_truncates (a b : Z) :
  Z.abs (a + b) - 1 <= 2 * Z.abs (int_half a b) <= Z.abs (a + b)
  /\ 0 <= (a + b) * int_half a b.
Proof.
  unfold int_half.
  pose proof (Z.quot_rem' (a + b) 2) as E.
  pose proof (Z.rem_bound_abs (a + b) 2 ltac:(lia)) as B.
  pose proof (Z.rem_sign_mul (a + b) 2 ltac:(lia)) as S.
  nia.
Qed.

(** The buffer's anchor (from the spec) and the heatmap's [get_xy]
    (from the sources) are the same function of box and position. *)
Lemma anchor_point_get_xy (self : HeatmapAnnotator) (p : Position) (b : Box) :
  Trace.anchor_point p b = HeatmapAnnotator.get_xy self b (Some p).
Proof. destruct p; reflexivity. Qed.


(** ** Construction of the heatmap annotator *)

(** C8, as stated, fails: an opacity of 2 and a kernel size of 4 are
    accepted by the constructor. *)
Lemma heatmap_init_accepts_bad_config :
  ~ (0 <= 2 <= 1)%Q
  /\ Z.odd 4 = false
  /\ raises (HeatmapAnnotator.__init__ (Some BOTTOM_CENTER) 2%Q 40 (Some 4)) = false.
Proof.
  split; [| split]; try reflexivity.
  intros [_ Hle]. revert Hle. unfold Qle. simpl. lia.
Qed.

(** C8, amended.  The constructor never reports a configuration error:
    whatever the opacity and the kernel size, it returns an annotator
    holding them as given, with no accumulator yet. *)
Theorem heatmap_init_never_raises (pos : option Position) (op : Q) (r : Z)
    (k : option Z) :
  exists self : HeatmapAnnotator,
    HeatmapAnnotator.__init__ pos op r k = Ok self
    /\ position self = pos
    /\ opacity self = op
    /\ radius self = r
    /\ kernel_size self = k
    /\ heatmask self = None.
Proof. eexists. repeat split. Qed.

(** ** Keypoints *)

Lemma shape_eqb_true (a b : Shape) : shape_eqb a b = true <-> a = b.
Proof. unfold shape_eqb. apply bool_decide_eq_true. Qed.

(** The shapes the constructor accepts: rank three with a last extent of
    2 or 3, where the second extent is read from the first subject and
    taken to be 0 when there is none; the confidence, when given, has
    the first two extents. *)
Lemma keypoints_new_ok (kp : Shape) (conf : option Shape) :
  raises (Keypoints.new kp conf) = false <->
  exists n m d : nat,
    kp = [n; m; d] /\ (d = 2 \/ d = 3)%nat /\ (n = 0 -> m = 0)%nat
    /\ (conf = None \/ conf = Some [n; m]).
Proof.
  unfold Keypoints.new, Keypoints.__post_init__; simpl.
  split.
  - destruct kp as [| n rest]; simpl; [discriminate |].
    destruct (0 <? n)%nat eqn:Hn; simpl.
    + destruct rest as [| m rest]; simpl; [discriminate |].
      unfold _validate_keypoint_structure.
      destruct (shape_eqb (n :: m :: rest) [n; m; 2%nat]) eqn:E2; simpl.
      * apply shape_eqb_true in E2. injection E2 as ->.
        destruct conf as [c |]; simpl.
        -- destruct (shape_eqb c [n; m]) eqn:Ec; simpl; [| discriminate].
           apply shape_eqb_true in Ec. subst c. intros _.
           exists n, m, 2%nat. apply Nat.ltb_lt in Hn.
           repeat split; auto; lia.
        -- intros _. exists n, m, 2%nat. apply Nat.ltb_lt in Hn.
           repeat split; auto; lia.
      * destruct (shape_eqb (n :: m :: rest) [n; m; 3%nat]) eqn:E3; simpl;
          [| discriminate].
        apply shape_eqb_true in E3. injection E3 as ->.
        destruct conf as [c |]; simpl.
        -- destruct (shape_eqb c [n; m]) eqn:Ec; simpl; [| discriminate].
           apply shape_eqb_true in Ec. subst c. intros _.
           exists n, m, 3%nat. apply Nat.ltb_lt in Hn.
           repeat split; auto; lia.
        -- intros _. exists n, m, 3%nat. apply Nat.ltb_lt in Hn.
           repeat split; auto; lia.
    + apply Nat.ltb_ge in Hn. assert (n = 0%nat) as -> by lia.
      unfold _validate_keypoint_structure.
      destruct (shape_eqb (0%nat :: rest) [0%nat; 0%nat; 2%nat]) eqn:E2; simpl.
      * apply shape_eqb_true in E2. injection E2 as ->.
        destruct conf as [c |]; simpl.
        -- destruct (shape_eqb c [0%nat; 0%nat]) eqn:Ec; simpl; [| discriminate].
           apply shape_eqb_true in Ec. subst c. intros _.
           exists 0%nat, 0%nat, 2%nat. repeat split; auto.
        -- intros _. exists 0%nat, 0%nat, 2%nat. repeat split; auto.
      * destruct (shape_eqb (0%nat :: rest) [0%nat; 0%nat; 3%nat]) eqn:E3; simpl;
          [| discriminate].
        apply shape_eqb_true in E3. injection E3 as ->.
        destruct conf as [c |]; simpl.
        -- destruct (shape_eqb c [0%nat; 0%nat]) eqn:Ec; simpl; [| discriminate].
           apply shape_eqb_true in Ec. subst c. intros _.
           exists 0%nat, 0%nat, 3%nat. repeat split; auto.
        -- intros _. exists 0%nat, 0%nat, 3%nat. repeat split; auto.
  - intros (n & m & d & -> & Hd & Hm & Hc). simpl.
    assert (Hm' : (if (0 <? n)%nat then Ok m else Ok 0%nat) = @Ok nat m).
    { destruct (0 <? n)%nat eqn:Hn; [reflexivity |].
      apply Nat.ltb_ge in Hn. rewrite Hm; [reflexivity | lia]. }
    rewrite Hm'. simpl. unfold _validate_keypoint_structure.
    assert (Hv : shape_eqb [n; m; d] [n; m; 2%nat] || shape_eqb [n; m; d] [n; m; 3%nat] = true).
    { apply orb_true_iff. destruct Hd as [-> | ->];
        [left | right]; apply shape_eqb_true; reflexivity. }
    rewrite Hv. simpl.
    destruct Hc as [-> | ->]; simpl; [reflexivity |].
    assert (Hcv : shape_eqb [n; m] [n; m] = true) by (apply shape_eqb_true; reflexivity).
    rewrite Hcv. reflexivity.
Qed.

(** C9, on the sources.  An array of shape (0, 5, 2), zero subjects of
    five landmarks each, is of the shape (N, M, 2) the validator's
    docstring and message name, yet constructing [Keypoints] from it
    raises [ValueError], with or without a matching confidence: with no
    subject to read M from, [__post_init__] takes M to be 0.  Shapes
    with at least one subject, and the empty instance, are accepted. *)
Theorem keypoints_empty_batch_rejected :
  Keypoints.new [0; 5; 2]%nat None = Raise ValueError
  /\ Keypoints.new [0; 5; 2]%nat (Some [0; 5]%nat) = Raise ValueError
  /\ raises (Keypoints.new [1; 5; 2]%nat (Some [1; 5]%nat)) = false
  /\ raises Keypoints.empty = false.
Proof. repeat split. Qed.

(** ** The identity history buffer *)

Lemma lastn_length {A : Type} (n : nat) (l : list A) :
  length (lastn n l) = Nat.min n (length l).
Proof. unfold lastn. rewrite length_drop. lia. Qed.

Lemma lastn_snoc {A : Type} (n : nat) (l : list A) (x : A) :
  (0 < n)%nat ->
  lastn n (l ++ [x]) =
  (if (n <=? length (lastn n l))%nat then tail (lastn n l) else lastn n l) ++ [x].
Proof.
  intros Hn. rewrite lastn_length. unfold lastn. rewrite length_app. simpl.
  destruct (Nat.leb_spec n (Nat.min n (length l))) as [Hle | Hlt].
  - assert (Hl : (n <= length l)%nat) by lia.
    replace (length l + 1 - n)%nat with (S (length l - n)) by lia.
    rewrite drop_app_le by lia.
    f_equal. generalize (length l - n)%nat as k. clear.
    intros k. revert l. induction k as [| k IH]; intros [| y l]; simpl; auto.
  - assert (Hl : (length l < n)%nat) by lia.
    replace (length l + 1 - n)%nat with 0%nat by lia.
    replace (length l - n)%nat with 0%nat by lia.
    reflexivity.
Qed.

Lemma trace_append_get (tr : Trace) (id id' : Z) (p : Point) :
  Trace.get (Trace.append tr id p) id' =
  if bool_decide (id = id')
  then (if max_size tr <=? Z.of_nat (length (Trace.get tr id))
        then tail (Trace.get tr id) else Trace.get tr id) ++ [p]
  else Trace.get tr id'.
Proof.
  unfold Trace.append, Trace.get at 1. simpl.
  rewrite lookup_insert. case_decide as E.
  - rewrite bool_decide_eq_true_2 by assumption. reflexivity.
  - rewrite bool_decide_eq_false_2 by assumption. reflexivity.
Qed.

Lemma put_frames_concat (tr : Trace) (frames : list Detections) :
  put_frames tr frames = Trace.put tr (concat frames).
Proof.
  unfold put_frames, Trace.put. revert tr.
  induction frames as [| f frames IH]; intros tr; simpl; [reflexivity |].
  rewrite fold_left_app. apply IH.
Qed.

Lemma trace_put_config (tr : Trace) (detections : Detections) :
  max_size (Trace.put tr detections) = max_size tr
  /\ anchor (Trace.put tr detections) = anchor tr.
Proof.
  unfold Trace.put. revert tr.
  induction detections as [| d ds IH]; intros tr; simpl; [auto |].
  destruct (IH (match tracker_id d with
                | Some id => Trace.append tr id (Trace.anchor_point (anchor tr) (xyxy d))
                | None => tr
                end)) as [Hm Ha].
  rewrite Hm, Ha. destruct (tracker_id d); auto.
Qed.

Lemma trace_put_snoc (tr : Trace) (detections : Detections) (d : Detection) :
  Trace.put tr (detections ++ [d]) =
  let tr' := Trace.put tr detections in
  match tracker_id d with
  | Some id => Trace.append tr' id (Trace.anchor_point (anchor tr') (xyxy d))
  | None => tr'
  end.
Proof. unfold Trace.put. rewrite fold_left_app. reflexivity. Qed.

Lemma points_put_snoc (a : Position) (id : Z) (detections : Detections) (d : Detection) :
  points_put a id (detections ++ [d]) =
  points_put a id detections ++
  (if bool_decide (tracker_id d = Some id) then [Trace.anchor_point a (xyxy d)] else []).
Proof.
  unfold points_put. rewrite omap_app. simpl.
  destruct (bool_decide (tracker_id d = Some id)); reflexivity.
Qed.

(** The invariant of the buffer: each identity holds the last
    [trace_length] points put for it. *)
Lemma trace_put_invariant (L : Z) (a : Position) (tr : Trace)
    (detections : Detections) (id : Z) :
  Trace.__init__ L a = Ok tr ->
  Trace.get (Trace.put tr detections) id =
  lastn (Z.to_nat L) (points_put a id detections).
Proof.
  unfold Trace.__init__. destruct (Z.leb_spec L 0) as [| HL]; [discriminate |].
  intros [= <-].
  induction detections as [| d ds IH] using rev_ind.
  - reflexivity.
  - rewrite trace_put_snoc, points_put_snoc.
    set (tr0 := mk_trace L a ∅) in *.
    destruct (trace_put_config tr0 ds) as [Hm Ha]. simpl in Hm, Ha.
    cbv zeta. rewrite Ha.
    destruct (tracker_id d) as [id0 |] eqn:Hid.
    + rewrite trace_append_get. rewrite Hm.
      destruct (decide (id0 = id)) as [-> | Hne].
      * rewrite !bool_decide_eq_true_2 by reflexivity.
        rewrite lastn_snoc by lia. rewrite IH.
        destruct (Z.leb_spec L (Z.of_nat (length (lastn (Z.to_nat L) (points_put a id ds)))));
          destruct (Nat.leb_spec (Z.to_nat L) (length (lastn (Z.to_nat L) (points_put a id ds))));
          try reflexivity; lia.
      * rewrite bool_decide_eq_false_2 by assumption.
        rewrite bool_decide_eq_false_2 by congruence.
        rewrite app_nil_r. apply IH.
    + rewrite bool_decide_eq_false_2 by congruence.
      rewrite app_nil_r. apply IH.
Qed.

(** C1.  For a buffer constructed with capacity [L], after any sequence
    of frames [get] returns, for every identity, the last [L] anchor
    points put for it (all of them when fewer were put), oldest first;
    its length is at most [L].  With [L = 3], the points (1,1), (2,2),
    (3,3), (4,4) put for identity 7 in four successive frames leave
    [(2,2); (3,3); (4,4)]. *)
Theorem trace_get_most_recent :
  (forall (L : Z) (a : Position) (tr : Trace) (frames : list Detections) (id : Z),
      Trace.__init__ L a = Ok tr ->
      let stored := Trace.get (put_frames tr frames) id in
      stored = lastn (Z.to_nat L) (points_put a id (concat frames))
      /\ Z.of_nat (length stored) <= L)
  /\ (forall a : Position,
        exists tr : Trace,
          Trace.__init__ 3 a = Ok tr
          /\ Trace.get
               (put_frames tr
                  [[Reference.tracked (1, 1, 1, 1) 7]; [Reference.tracked (2, 2, 2, 2) 7];
                   [Reference.tracked (3, 3, 3, 3) 7]; [Reference.tracked (4, 4, 4, 4) 7]]) 7
             = [(2, 2); (3, 3); (4, 4)]).
Proof.
  assert (General : forall L a tr frames id,
             Trace.__init__ L a = Ok tr ->
             Trace.get (put_frames tr frames) id
             = lastn (Z.to_nat L) (points_put a id (concat frames))).
  { intros L a tr frames id Hinit. rewrite put_frames_concat.
    apply trace_put_invariant. exact Hinit. }
  split.
  - intros L a tr frames id Hinit stored. subst stored.
    rewrite (General L a tr frames id Hinit). split; [reflexivity |].
    rewrite lastn_length.
    unfold Trace.__init__ in Hinit.
    destruct (Z.leb_spec L 0); [discriminate | lia].
  - intros a. eexists. split; [reflexivity |].
    rewrite (General 3 a _ _ 7 eq_refl).
    destruct a; reflexivity.
Qed.

(** The scenario of C1, run on a buffer of capacity 3. *)
Lemma trace_get_most_recent_witness :
  exists tr : Trace,
    Trace.__init__ 3 CENTER = Ok tr
    /\ Trace.get (put_frames tr [[Reference.tracked (1, 1, 1, 1) 7];
                                 [Reference.tracked (5, 5, 5, 5) 8]]) 7
       = lastn 3 [(1, 1)].
Proof.
  eexists. split; [reflexivity |].
  exact (proj1 (proj1 trace_get_most_recent 3 CENTER _
                  [[Reference.tracked (1, 1, 1, 1) 7];
                   [Reference.tracked (5, 5, 5, 5) 8]] 7 eq_refl)).
Defined.

(** ** Detections without a tracker identity *)

Section TracePath.
Context `{Backend} `{Colours}.

Lemma trace_put_skips (tr : Trace) (detections : Detections) :
  Trace.put tr detections = Trace.put tr (filter has_identity detections).
Proof.
  unfold Trace.put. revert tr.
  induction detections as [| d ds IH]; intros tr; [reflexivity |].
  simpl. unfold has_identity at 1.
  destruct (tracker_id d) as [id |] eqn:Hid; simpl; [rewrite Hid |]; apply IH.
Qed.

Lemma draw_traces_raises (self : TraceAnnotator) (detections todo : Detections)
    (idx : nat) (scene : Scene) :
  raises (TraceAnnotator.draw_traces self detections idx todo scene)
  = existsb (fun d => negb (has_identity d)) todo.
Proof.
  revert idx scene.
  induction todo as [| d rest IH]; intros idx scene; simpl; [reflexivity |].
  unfold has_identity at 1.
  destruct (tracker_id d) as [id |]; simpl; [| reflexivity].
  apply IH.
Qed.


End TracePath.


(** ** Arrays: maximum and addition *)

Lemma elem_of_indices (h w i j : nat) :
  (i, j) ∈ indices h w <-> (i < h)%nat /\ (j < w)%nat.
Proof.
  unfold indices. rewrite list_elem_of_bind. split.
  - intros (i' & Hj & Hi). apply list_elem_of_fmap in Hj as (j' & [= -> ->] & Hj).
    apply elem_of_seq in Hi, Hj. lia.
  - intros [Hi Hj]. exists i. split.
    + apply list_elem_of_fmap. exists j. split; [reflexivity |].
      apply elem_of_seq. lia.
    + apply elem_of_seq. lia.
Qed.

Lemma elem_of_elements {A : Type} (a : ndarray A) (x : A) :
  x ∈ elements a <->
  exists i j, (i < nrows a)%nat /\ (j < ncols a)%nat /\ px a i j = x.
Proof.
  unfold elements. rewrite list_elem_of_fmap. split.
  - intros ([i j] & -> & Hin). apply elem_of_indices in Hin as [Hi Hj].
    exists i, j. auto.
  - intros (i & j & Hi & Hj & <-). exists (i, j). split; [reflexivity |].
    apply elem_of_indices. auto.
Qed.

Lemma fold_max_spec (xs : list Z) (x : Z) :
  (forall y, y ∈ x :: xs -> y <= fold_left Z.max xs x)
  /\ fold_left Z.max xs x ∈ x :: xs.
Proof.
  revert x. induction xs as [| z xs IH]; intros x; simpl.
  - split; [| apply list_elem_of_here].
    intros y Hy. apply list_elem_of_singleton in Hy. lia.
  - destruct (IH (Z.max x z)) as [Hub Hin]. split.
    + intros y Hy. apply elem_of_cons in Hy as [-> | Hy].
      * specialize (Hub (Z.max x z) ltac:(apply list_elem_of_here)). lia.
      * apply elem_of_cons in Hy as [-> | Hy].
        -- specialize (Hub (Z.max x z) ltac:(apply list_elem_of_here)). lia.
        -- apply Hub. apply list_elem_of_further. exact Hy.
    + apply elem_of_cons in Hin as [Heq | Hin].
      * rewrite Heq. destruct (Z.max_spec x z) as [[_ ->] | [_ ->]].
        -- apply list_elem_of_further, list_elem_of_here.
        -- apply list_elem_of_here.
      * do 2 apply list_elem_of_further. exact Hin.
Qed.

Lemma np_max_spec (a : ndarray Z) (m : Z) :
  np_max a = Ok m ->
  (forall i j, (i < nrows a)%nat -> (j < ncols a)%nat -> px a i j <= m)
  /\ exists i j, (i < nrows a)%nat /\ (j < ncols a)%nat /\ px a i j = m.
Proof.
  unfold np_max. destruct (elements a) as [| x xs] eqn:E; [discriminate |].
  intros [= <-]. destruct (fold_max_spec xs x) as [Hub Hin]. split.
  - intros i j Hi Hj. apply Hub. rewrite <- E. apply elem_of_elements. eauto.
  - rewrite <- E in Hin. apply elem_of_elements in Hin. exact Hin.
Qed.

Lemma np_max_nonempty (a : ndarray Z) (i j : nat) :
  (i < nrows a)%nat -> (j < ncols a)%nat -> exists m, np_max a = Ok m.
Proof.
  intros Hi Hj. unfold np_max.
  destruct (elements a) as [| x xs] eqn:E; [| eauto].
  assert (Hin : px a i j ∈ elements a) by (apply elem_of_elements; eauto).
  rewrite E in Hin. inversion Hin.
Qed.

Lemma broadcast_idx_id (n i : nat) : (i < n)%nat -> broadcast_idx n i = i.
Proof.
  intros Hi. unfold broadcast_idx. destruct (Nat.eqb_spec n 1); [lia | reflexivity].
Qed.

Lemma broadcast_dim_r (a b r : nat) :
  broadcast_dim a b = Some r -> (b <= r)%nat \/ b = 1%nat.
Proof.
  unfold broadcast_dim.
  destruct (Nat.eqb_spec a b); [intros [= <-]; lia |].
  destruct (Nat.eqb_spec a 1); [intros [= <-]; lia |].
  destruct (Nat.eqb_spec b 1); [intros _; lia | discriminate].
Qed.

Lemma broadcast_dim_same (a : nat) : broadcast_dim a a = Some a.
Proof. unfold broadcast_dim. rewrite Nat.eqb_refl. reflexivity. Qed.

(** The sum holds, at every index of the second operand, that operand's
    value plus a value of the first. *)
Lemma np_add_r (a b c : ndarray Z) :
  np_add a b = Ok c ->
  forall i j, (i < nrows b)%nat -> (j < ncols b)%nat ->
    px c i j = px a (broadcast_idx (nrows a) i) (broadcast_idx (ncols a) j) + px b i j.
Proof.
  unfold np_add.
  destruct (broadcast_dim (nrows a) (nrows b)) as [r |]; [| discriminate].
  destruct (broadcast_dim (ncols a) (ncols b)) as [w |]; [| discriminate].
  intros [= <-] i j Hi Hj. simpl.
  rewrite (broadcast_idx_id (nrows b)), (broadcast_idx_id (ncols b)) by assumption.
  reflexivity.
Qed.

Lemma np_add_same_shape (a b : ndarray Z) :
  shape a = shape b ->
  exists c, np_add a b = Ok c
            /\ shape c = shape b
            /\ forall i j, (i < nrows b)%nat -> (j < ncols b)%nat ->
                 px c i j = px a i j + px b i j.
Proof.
  unfold shape. intros [= Hr Hc]. unfold np_add. rewrite Hr, Hc.
  rewrite !broadcast_dim_same. eexists. split; [reflexivity |].
  split; [reflexivity |].
  intros i j Hi Hj. simpl.
  rewrite !broadcast_idx_id by assumption. reflexivity.
Qed.

(** ** The accumulator *)

Section Heat.
Context `{Backend}.

Lemma covers_set_heatmask (self : HeatmapAnnotator) (h : ndarray Z) (d : Detection)
    (i j : nat) :
  covers (set_heatmask self h) d i j = covers self d i j.
Proof. reflexivity. Qed.

Lemma covered_set_heatmask (self : HeatmapAnnotator) (h : ndarray Z)
    (detections : Detections) (i j : nat) :
  covered (set_heatmask self h) detections i j = covered self detections i j.
Proof. reflexivity. Qed.

(** The per-frame mask: 1 where some disk of the frame covers the
    pixel, whatever the number of disks, and untouched elsewhere. *)
Lemma draw_circles_spec (self : HeatmapAnnotator) (detections : Detections)
    (mask mask' : ndarray Z) :
  HeatmapAnnotator.draw_circles self mask detections = Ok mask' ->
  shape mask' = shape mask
  /\ forall i j, px mask' i j = if covered self detections i j then 1 else px mask i j.
Proof.
  revert mask. induction detections as [| d ds IH]; intros mask; simpl.
  - intros [= <-]. auto.
  - unfold HeatmapAnnotator.cv2_circle.
    destruct (radius self <? 0); simpl; [discriminate |].
    intros Hrest. apply IH in Hrest as [Hshape Hpx]. split; [exact Hshape |].
    intros i j. rewrite Hpx. simpl. unfold covers.
    destruct (covered self ds i j); [rewrite orb_true_r; reflexivity |].
    rewrite orb_false_r. reflexivity.
Qed.

Lemma draw_circles_ok (self : HeatmapAnnotator) (detections : Detections)
    (mask : ndarray Z) :
  0 <= radius self ->
  exists mask', HeatmapAnnotator.draw_circles self mask detections = Ok mask'.
Proof.
  intros Hr. revert mask. induction detections as [| d ds IH]; intros mask; simpl.
  - eauto.
  - unfold HeatmapAnnotator.cv2_circle.
    destruct (Z.ltb_spec (radius self) 0); [lia |]. simpl. apply IH.
Qed.

Lemma draw_circles_set_heatmask (self : HeatmapAnnotator) (h : ndarray Z)
    (detections : Detections) (mask : ndarray Z) :
  HeatmapAnnotator.draw_circles (set_heatmask self h) mask detections
  = HeatmapAnnotator.draw_circles self mask detections.
Proof.
  revert mask. induction detections as [| d ds IH]; intros mask; simpl; [reflexivity |].
  destruct (HeatmapAnnotator.cv2_circle mask _ _ 1); simpl; [apply IH | reflexivity].
Qed.

(** The accumulator after the update block: either the block raised and
    the accumulator is the one the call started from, or it is the sum
    of the mask of this frame and that accumulator. *)
Lemma accumulate_heatmask (self : HeatmapAnnotator) (scene : Scene)
    (detections : Detections) :
  let self' := fst (HeatmapAnnotator.accumulate self scene detections) in
  let r := snd (HeatmapAnnotator.accumulate self scene detections) in
  position self' = position self /\ opacity self' = opacity self
  /\ radius self' = radius self /\ kernel_size self' = kernel_size self
  /\ ((raises r = true /\ heatmask self' = Some (initial_heat self scene))
      \/ (exists mask heat1,
             r = Ok tt
             /\ HeatmapAnnotator.draw_circles self (np_zeros (shape scene)) detections
                = Ok mask
             /\ np_add mask (initial_heat self scene) = Ok heat1
             /\ heatmask self' = Some heat1)).
Proof.
  unfold HeatmapAnnotator.accumulate. fold (initial_heat self scene).
  rewrite draw_circles_set_heatmask.
  destruct (HeatmapAnnotator.draw_circles self (np_zeros (shape scene)) detections)
    as [mask | e] eqn:Hd; simpl.
  - destruct (np_add mask (initial_heat self scene)) as [heat1 | e] eqn:Ha; simpl.
    + repeat split. right. exists mask, heat1. auto.
    + repeat split. left. auto.
  - repeat split. left. auto.
Qed.

Lemma annotate_fst (self : HeatmapAnnotator) (scene : Scene) (detections : Detections) :
  fst (HeatmapAnnotator.annotate self scene detections)
  = fst (HeatmapAnnotator.accumulate self scene detections).
Proof.
  unfold HeatmapAnnotator.annotate.
  destruct (HeatmapAnnotator.accumulate self scene detections). reflexivity.
Qed.

Lemma annotate_snd (self : HeatmapAnnotator) (scene : Scene) (detections : Detections) :
  snd (HeatmapAnnotator.annotate self scene detections)
  = (_ ← snd (HeatmapAnnotator.accumulate self scene detections);
     HeatmapAnnotator.render (fst (HeatmapAnnotator.accumulate self scene detections)) scene).
Proof.
  unfold HeatmapAnnotator.annotate.
  destruct (HeatmapAnnotator.accumulate self scene detections). reflexivity.
Qed.

(** Every value of a reachable accumulator is a count. *)
Lemma reachable_nonneg (self : HeatmapAnnotator) :
  reachable self ->
  forall h, heatmask self = Some h -> forall i j, 0 <= px h i j.
Proof.
  induction 1 as [pos op r k self Hinit | self scene detections Hreach IH].
  - injection Hinit as <-. discriminate.
  - rewrite annotate_fst.
    assert (H0 : forall i j, 0 <= px (initial_heat self scene) i j).
    { unfold initial_heat. destruct (heatmask self) as [h0 |] eqn:Hh.
      - apply (IH h0 eq_refl).
      - simpl. lia. }
    destruct (accumulate_heatmask self scene detections)
      as (_ & _ & _ & _ & [[_ Hh] | (mask & heat1 & _ & Hd & Ha & Hh)]);
      intros h Hsome i j; rewrite Hh in Hsome; injection Hsome as <-.
    + apply H0.
    + apply draw_circles_spec in Hd as [_ Hpx].
      unfold np_add in Ha.
      destruct (broadcast_dim _ _); [| discriminate].
      destruct (broadcast_dim _ _); [| discriminate].
      injection Ha as <-. simpl.
      match goal with |- 0 <= px mask ?a ?b + px _ ?c ?d =>
        specialize (Hpx a b); specialize (H0 c d) end.
      simpl in Hpx. destruct (covered _ _ _ _); lia.
Qed.

End Heat.

Section HeatSteps.
Context `{Backend}.

Lemma covers_config (a b : HeatmapAnnotator) (d : Detection) (i j : nat) :
  position a = position b -> radius a = radius b -> covers a d i j = covers b d i j.
Proof.
  unfold covers. intros -> ->.
  replace (HeatmapAnnotator.get_xy a (xyxy d) (position b))
    with (HeatmapAnnotator.get_xy b (xyxy d) (position b)); [reflexivity |].
  destruct (position b) as [[] |]; reflexivity.
Qed.

Lemma covered_config (a b : HeatmapAnnotator) (ds : Detections) (i j : nat) :
  position a = position b -> radius a = radius b -> covered a ds i j = covered b ds i j.
Proof.
  intros Hp Hr. unfold covered. induction ds as [| d ds IH]; simpl; [reflexivity |].
  rewrite IH, (covers_config a b d i j Hp Hr). reflexivity.
Qed.

Lemma initial_heat_shape (self : HeatmapAnnotator) (scene : Scene) :
  fits self (shape scene) -> shape (initial_heat self scene) = shape scene.
Proof.
  unfold fits, initial_heat. intros Hfit.
  destruct (heatmask self) as [h |]; [apply Hfit; reflexivity | reflexivity].
Qed.

Lemma initial_heat_at (self : HeatmapAnnotator) (scene : Scene) (i j : nat) :
  px (initial_heat self scene) i j = heat_at self i j.
Proof. unfold initial_heat, heat_at. destruct (heatmask self); reflexivity. Qed.

(** One call on a frame of the accumulator's shape.  The accumulator
    keeps that shape; either drawing raised and its values are the ones
    the call started from, or each value grew by the mask of the frame:
    by 1 where some disk covers the pixel, by 0 elsewhere. *)
Lemma annotate_step (self : HeatmapAnnotator) (scene : Scene) (detections : Detections) :
  fits self (shape scene) ->
  let self' := fst (HeatmapAnnotator.annotate self scene detections) in
  position self' = position self /\ radius self' = radius self
  /\ kernel_size self' = kernel_size self /\ opacity self' = opacity self
  /\ exists h', heatmask self' = Some h' /\ shape h' = shape scene
     /\ ((raises (HeatmapAnnotator.draw_circles self (np_zeros (shape scene)) detections)
          = true
          /\ h' = initial_heat self scene)
         \/ (raises (snd (HeatmapAnnotator.accumulate self scene detections)) = false
             /\ forall i j, (i < nrows scene)%nat -> (j < ncols scene)%nat ->
                  px h' i j
                  = (if covered self detections i j then 1 else 0) + heat_at self i j)).
Proof.
  intros Hfit. cbv zeta. rewrite annotate_fst.
  pose proof (initial_heat_shape self scene Hfit) as Hshape0.
  destruct (accumulate_heatmask self scene detections)
    as (Hp & Ho & Hr & Hk & Hcases).
  repeat (split; [assumption |]).
  destruct Hcases as [[Hraise Hh] | (mask & heat1 & Hres & Hd & Ha & Hh)].
  - exists (initial_heat self scene). repeat (split; [assumption |]).
    left. split; [| reflexivity].
    unfold HeatmapAnnotator.accumulate in Hraise.
    fold (initial_heat self scene) in Hraise.
    rewrite draw_circles_set_heatmask in Hraise.
    destruct (HeatmapAnnotator.draw_circles self (np_zeros (shape scene)) detections)
      as [mask | e] eqn:Hd; [| reflexivity].
    apply draw_circles_spec in Hd as [Hms _].
    destruct (np_add_same_shape mask (initial_heat self scene)) as (c & Hc & _).
    { rewrite Hms, Hshape0. reflexivity. }
    rewrite Hc in Hraise. discriminate.
  - exists heat1. split; [assumption |].
    apply draw_circles_spec in Hd as [Hms Hpx].
    destruct (np_add_same_shape mask (initial_heat self scene)) as (c & Hc & Hcs & Hcpx).
    { rewrite Hms, Hshape0. reflexivity. }
    rewrite Hc in Ha. injection Ha as <-.
    split; [rewrite Hcs; exact Hshape0 |].
    right. split; [rewrite Hres; reflexivity |].
    intros i j Hi Hj.
    assert (Hs : nrows (initial_heat self scene) = nrows scene
                 /\ ncols (initial_heat self scene) = ncols scene).
    { unfold shape in Hshape0. injection Hshape0 as -> ->. auto. }
    destruct Hs as [Hsr Hsc].
    rewrite Hcpx by lia.
    rewrite Hpx, initial_heat_at. simpl. reflexivity.
Qed.

Lemma annotate_fits (self : HeatmapAnnotator) (scene : Scene) (detections : Detections) :
  fits self (shape scene) ->
  fits (fst (HeatmapAnnotator.annotate self scene detections)) (shape scene).
Proof.
  intros Hfit.
  destruct (annotate_step self scene detections Hfit)
    as (_ & _ & _ & _ & h' & Hh & Hs & _).
  intros h Hsome. rewrite Hh in Hsome. injection Hsome as <-. exact Hs.
Qed.

(** One call never lowers a value of the accumulator. *)
Lemma annotate_step_monotone (self : HeatmapAnnotator) (scene : Scene)
    (detections : Detections) (i j : nat) :
  fits self (shape scene) -> (i < nrows scene)%nat -> (j < ncols scene)%nat ->
  heat_at self i j <= heat_at (fst (HeatmapAnnotator.annotate self scene detections)) i j.
Proof.
  intros Hfit Hi Hj.
  destruct (annotate_step self scene detections Hfit)
    as (_ & _ & _ & _ & h' & Hh & Hs & [[_ ->] | [_ Hpx]]).
  - unfold heat_at at 2. rewrite Hh. rewrite initial_heat_at. lia.
  - unfold heat_at at 2. rewrite Hh. rewrite (Hpx i j Hi Hj).
    destruct (covered self detections i j); lia.
Qed.

Lemma feed_fits (self : HeatmapAnnotator) (frames : list (Scene * Detections))
    (s : nat * nat) :
  fits self s -> Forall (fun f => shape (fst f) = s) frames -> fits (feed self frames) s.
Proof.
  intros Hfit Hall. revert self Hfit.
  induction Hall as [| f frames Hf Hall IH]; intros self Hfit; simpl; [exact Hfit |].
  apply IH. rewrite <- Hf. apply annotate_fits. rewrite Hf. exact Hfit.
Qed.

Lemma feed_monotone (self : HeatmapAnnotator) (frames : list (Scene * Detections))
    (s : nat * nat) (i j : nat) :
  fits self s -> Forall (fun f => shape (fst f) = s) frames ->
  (i < fst s)%nat -> (j < snd s)%nat ->
  heat_at self i j <= heat_at (feed self frames) i j.
Proof.
  intros Hfit Hall Hi Hj. revert self Hfit.
  induction Hall as [| f frames Hf Hall IH]; intros self Hfit; simpl; [lia |].
  assert (Hfit' : fits self (shape (fst f))) by (rewrite Hf; exact Hfit).
  etransitivity.
  - apply (annotate_step_monotone self (fst f) (snd f) i j Hfit').
    + change (nrows (fst f)) with (fst (shape (fst f))). rewrite Hf. exact Hi.
    + change (ncols (fst f)) with (snd (shape (fst f))). rewrite Hf. exact Hj.
  - apply IH. rewrite <- Hf. apply annotate_fits. exact Hfit'.
Qed.

Lemma feed_reachable (self : HeatmapAnnotator) (frames : list (Scene * Detections)) :
  reachable self -> reachable (feed self frames).
Proof.
  revert self. induction frames as [| f frames IH]; intros self Hr; simpl; [exact Hr |].
  apply IH. apply reach_annotate. exact Hr.
Qed.

End HeatSteps.

(** ** Monotonicity, the empty frame, additivity *)

Section HeatClaims.
Context `{Backend}.

(** C5.  Along any sequence of [annotate] calls on frames of one shape,
    starting from any annotator a program can hold, every value of the
    accumulator is non-negative and never decreases, whether the calls
    return or raise; and the annotator a call leaves behind is the one
    its update block left: the display-time normalisation that follows
    does not write the accumulator. *)
Theorem heatmask_monotone (self : HeatmapAnnotator)
    (frames more : list (Scene * Detections)) (s : nat * nat) (i j : nat) :
  reachable self ->
  fits self s ->
  Forall (fun f => shape (fst f) = s) frames ->
  Forall (fun f => shape (fst f) = s) more ->
  (i < fst s)%nat -> (j < snd s)%nat ->
  0 <= heat_at (feed self frames) i j
  /\ heat_at (feed self frames) i j <= heat_at (feed (feed self frames) more) i j
  /\ forall (scene : Scene) (detections : Detections),
       fst (HeatmapAnnotator.annotate (feed self frames) scene detections)
       = fst (HeatmapAnnotator.accumulate (feed self frames) scene detections).
Proof.
  intros Hreach Hfit Hframes Hmore Hi Hj.
  split; [| split].
  - unfold heat_at.
    destruct (heatmask (feed self frames)) as [h |] eqn:Hh; [| lia].
    apply (reachable_nonneg (feed self frames)); [| exact Hh].
    apply feed_reachable. exact Hreach.
  - apply (feed_monotone _ more s); try assumption.
    apply feed_fits; assumption.
  - intros scene detections. apply annotate_fst.
Qed.

(** C10.  Whatever call came before, the accumulator exists afterwards;
    a further call with no detection, on a frame of the accumulator's
    shape, paints nothing into the per-frame mask and leaves the
    accumulator elementwise as it was. *)
Theorem heatmask_empty_frame_identity (self0 : HeatmapAnnotator) (scene0 : Scene)
    (detections0 : Detections) (scene : Scene) :
  let self := fst (HeatmapAnnotator.annotate self0 scene0 detections0) in
  exists h : ndarray Z,
    heatmask self = Some h
    /\ (shape scene = shape h ->
        HeatmapAnnotator.draw_circles self (np_zeros (shape scene)) []
        = Ok (np_zeros (shape scene))
        /\ (forall i j, px (np_zeros (shape scene)) i j = 0)
        /\ exists h' : ndarray Z,
             heatmask (fst (HeatmapAnnotator.annotate self scene [])) = Some h'
             /\ array_eq h' h).
Proof.
  cbv zeta. rewrite (annotate_fst self0).
  destruct (accumulate_heatmask self0 scene0 detections0)
    as (_ & _ & _ & _ & Hcases).
  assert (Hex : exists h,
             heatmask (fst (HeatmapAnnotator.accumulate self0 scene0 detections0))
             = Some h).
  { destruct Hcases as [[_ Hh] | (mask & heat1 & _ & _ & _ & Hh)]; eauto. }
  destruct Hex as [h Hh]. exists h. split; [exact Hh |].
  set (self := fst (HeatmapAnnotator.accumulate self0 scene0 detections0)) in *.
  intros Hshape. split; [reflexivity |]. split; [reflexivity |].
  assert (Hfit : fits self (shape scene)).
  { intros h1 Hh1. rewrite Hh in Hh1. injection Hh1 as <-. symmetry. exact Hshape. }
  destruct (annotate_step self scene [] Hfit)
    as (_ & _ & _ & _ & h' & Hh' & Hs' & [[Hraise _] | [_ Hpx]]).
  - simpl in Hraise. discriminate.
  - exists h'. split; [exact Hh' |]. split; [congruence |].
    intros i j Hi Hj.
    assert (Hdims : nrows h' = nrows scene /\ ncols h' = ncols scene).
    { unfold shape in Hs'. injection Hs' as -> ->. auto. }
    rewrite Hpx by lia. simpl. unfold heat_at. rewrite Hh. reflexivity.
Qed.

(** From a fresh annotator with a radius OpenCV accepts, frames of one
    shape leave at each pixel the number of frames in which some disk
    covered it. *)
Lemma feed_counts_frames (self : HeatmapAnnotator) (frames : list (Scene * Detections))
    (s : nat * nat) (i j : nat) :
  fits self s -> 0 <= radius self ->
  Forall (fun f => shape (fst f) = s) frames ->
  (i < fst s)%nat -> (j < snd s)%nat ->
  heat_at (feed self frames) i j
  = heat_at self i j + Z.of_nat (frames_covering self (map snd frames) i j).
Proof.
  intros Hfit Hr Hall Hi Hj. revert self Hfit Hr.
  induction Hall as [| f frames Hf Hall IH]; intros self Hfit Hr.
  - simpl. unfold frames_covering. simpl. lia.
  - simpl.
    assert (Hfit' : fits self (shape (fst f))) by (rewrite Hf; exact Hfit).
    destruct (annotate_step self (fst f) (snd f) Hfit')
      as (Hp & Hrad & _ & _ & h' & Hh' & Hs' & Hcases).
    set (self1 := fst (HeatmapAnnotator.annotate self (fst f) (snd f))) in *.
    rewrite IH.
    + change (heat_at self1 i j
              + Z.of_nat (frames_covering self1 (map snd frames) i j)
              = heat_at self i j
                + Z.of_nat (frames_covering self (snd f :: map snd frames) i j)).
      assert (Hstep : heat_at self1 i j
                      = (if covered self (snd f) i j then 1 else 0) + heat_at self i j).
      { destruct Hcases as [[Hraise _] | [_ Hpx]].
        - destruct (draw_circles_ok self (snd f) (np_zeros (shape (fst f))) Hr)
            as [m Hm].
          rewrite Hm in Hraise. discriminate.
        - unfold heat_at at 1. rewrite Hh'. apply Hpx.
          + change (nrows (fst f)) with (fst (shape (fst f))). rewrite Hf. exact Hi.
          + change (ncols (fst f)) with (snd (shape (fst f))). rewrite Hf. exact Hj. }
      rewrite Hstep. unfold frames_covering. simpl.
      assert (Hcov : forall ds, covered self1 ds i j = covered self ds i j).
      { intros ds. apply covered_config; assumption. }
      rewrite (filter_ext _ _ Hcov).
      destruct (covered self (snd f) i j); simpl; lia.
    + rewrite <- Hf. apply annotate_fits. exact Hfit'.
    + change (0 <= radius self1). rewrite Hrad. exact Hr.
Qed.

End HeatClaims.

Section Additivity.
Context `{Backend}.

Lemma frames_covering_repeat (self : HeatmapAnnotator) (detections : Detections)
    (K i j : nat) :
  Z.of_nat (frames_covering self (repeat detections K) i j)
  = Z.of_nat K * (if covered self detections i j then 1 else 0).
Proof.
  unfold frames_covering. induction K as [| K IH]; [simpl; lia |].
  cbn [repeat filter]. destruct (covered self detections i j) eqn:E.
  - cbn [length]. lia.
  - lia.
Qed.


End Additivity.


(** ** The display field *)

Lemma Qtrunc_between (a b : Z) (q : Q) :
  0 <= a -> (inject_Z a <= q)%Q -> (q <= inject_Z b)%Q -> a <= Qtrunc q <= b.
Proof.
  destruct q as [n d]. unfold Qle, Qtrunc. simpl. intros Ha Hlo Hhi.
  assert (Hn : 0 <= n) by nia.
  rewrite Z.quot_div_nonneg by lia. split.
  - apply Z.div_le_lower_bound; lia.
  - apply Z.div_le_upper_bound; lia.
Qed.

Lemma ratio_bounds (h m : Z) :
  0 < m -> 0 <= h <= m -> (0 <= inject_Z h / inject_Z m <= 1)%Q.
Proof.
  intros Hm [H0 Hle].
  assert (Hmq : (0 < inject_Z m)%Q) by (unfold Qlt; simpl; lia).
  split.
  - apply Qle_shift_div_l; [exact Hmq |].
    rewrite Qmult_0_l. unfold Qle. simpl. lia.
  - apply Qle_shift_div_r; [exact Hmq |].
    rewrite Qmult_1_l. unfold Qle. simpl. lia.
Qed.

Section Display.
Context `{Backend}.

(** With a positive maximum, a count between 0 and the maximum shows
    between 10 and 100. *)
Lemma display_bounds (m h : Z) :
  0 < m -> 0 <= h <= m -> 10 <= HeatmapAnnotator.display m h <= 100.
Proof.
  intros Hm Hh. unfold HeatmapAnnotator.display, fdiv.
  destruct (Z.eqb_spec m 0); [lia |]. simpl.
  destruct (ratio_bounds h m Hm Hh) as [Hlo Hhi].
  assert (B : 10 <= Qtrunc (100 - inject_Z h / inject_Z m * 90)%Q <= 100).
  { apply Qtrunc_between; [lia | |].
    - change (inject_Z 10) with 10%Q. lra.
    - change (inject_Z 100) with 100%Q. lra. }
  rewrite Z.mod_small by lia. exact B.
Qed.

(** A pixel that was never covered shows 100. *)
Lemma display_cold (m : Z) : 0 < m -> HeatmapAnnotator.display m 0 = 100.
Proof.
  intros Hm. unfold HeatmapAnnotator.display, fdiv.
  destruct (Z.eqb_spec m 0); [lia |]. simpl.
  destruct (ratio_bounds 0 m Hm ltac:(lia)) as [Hlo Hhi].
  assert (Hz : (inject_Z 0 / inject_Z m == 0)%Q).
  { unfold Qdiv. change (inject_Z 0) with 0%Q. apply Qmult_0_l. }
  assert (B : 100 <= Qtrunc (100 - inject_Z 0 / inject_Z m * 90)%Q <= 100).
  { apply Qtrunc_between; [lia | |]; change (inject_Z 100) with 100%Q;
      rewrite Hz; lra. }
  rewrite Z.mod_small by lia. lia.
Qed.

(** With a zero maximum the quotient of a zero count is [nan], and the
    display value is the cast of [nan]. *)
Lemma display_zero_max :
  fdiv 0 0 = NaN
  /\ HeatmapAnnotator.display 0 0 = np_uint8_of_nonfinite NaN.
Proof. split; reflexivity. Qed.

Lemma display_field_shape (self : HeatmapAnnotator) (heat temp : ndarray Z) :
  HeatmapAnnotator.display_field self heat = Ok temp -> shape temp = shape heat.
Proof.
  unfold HeatmapAnnotator.display_field.
  destruct (np_max heat) as [m | e]; simpl; [| discriminate].
  destruct (kernel_size self) as [k |].
  - destruct (cv2_GaussianBlur _ k); simpl; [| discriminate].
    intros [= <-]. reflexivity.
  - intros [= <-]. reflexivity.
Qed.

Lemma display_field_plain (self : HeatmapAnnotator) (heat : ndarray Z) (m : Z) :
  kernel_size self = None -> np_max heat = Ok m ->
  HeatmapAnnotator.display_field self heat
  = Ok (array_map (HeatmapAnnotator.display m) heat).
Proof.
  intros Hk Hm. unfold HeatmapAnnotator.display_field. rewrite Hm, Hk. reflexivity.
Qed.

(** The frame [render] returns once the display field is there, on a
    frame of the accumulator's shape: the blend where the display value
    is nonzero, the base pixel elsewhere. *)
Lemma render_pixels (self : HeatmapAnnotator) (scene : Scene) (heat temp : ndarray Z) :
  heatmask self = Some heat ->
  shape heat = shape scene ->
  HeatmapAnnotator.display_field self heat = Ok temp ->
  exists scene' : Scene,
    HeatmapAnnotator.render self scene = Ok scene'
    /\ shape scene' = shape scene
    /\ forall i j, (i < nrows scene)%nat -> (j < ncols scene)%nat ->
         px scene' i j
         = if 0 <? px temp i j
           then blend self (px temp i j) (px scene i j)
           else px scene i j.
Proof.
  intros Hh Hshape Ht.
  pose proof (display_field_shape self heat temp Ht) as Hts.
  rewrite Hshape in Hts.
  assert (Hdims : nrows temp = nrows scene /\ ncols temp = ncols scene).
  { unfold shape in Hts. injection Hts as -> ->. auto. }
  destruct Hdims as [Hr Hc].
  unfold HeatmapAnnotator.render. rewrite Hh, Ht. simpl.
  unfold HeatmapAnnotator.assign_broadcast. simpl.
  rewrite Hr, Hc, !Nat.eqb_refl. simpl.
  eexists. split; [reflexivity |]. split; [reflexivity |].
  intros i j Hi Hj. simpl.
  rewrite !broadcast_idx_id by assumption. reflexivity.
Qed.

End Display.

(** ** Compositing *)

Section Compositing.
Context `{Backend}.

(** A call that returns has run the update block to its end. *)
Lemma annotate_returns (self : HeatmapAnnotator) (scene scene' : Scene)
    (detections : Detections) :
  snd (HeatmapAnnotator.annotate self scene detections) = Ok scene' ->
  snd (HeatmapAnnotator.accumulate self scene detections) = Ok tt
  /\ HeatmapAnnotator.render (fst (HeatmapAnnotator.annotate self scene detections)) scene
     = Ok scene'.
Proof.
  rewrite annotate_snd, annotate_fst.
  destruct (snd (HeatmapAnnotator.accumulate self scene detections)) as [[] | e];
    simpl; [auto | discriminate].
Qed.

Lemma render_display_field (self : HeatmapAnnotator) (scene scene' : Scene)
    (heat : ndarray Z) :
  heatmask self = Some heat ->
  HeatmapAnnotator.render self scene = Ok scene' ->
  exists temp, HeatmapAnnotator.display_field self heat = Ok temp.
Proof.
  intros Hh. unfold HeatmapAnnotator.render. rewrite Hh.
  destruct (HeatmapAnnotator.display_field self heat) as [temp | e]; simpl;
    [eauto | discriminate].
Qed.



End Compositing.

(** * Further properties *)

(** ** Anchors and display values of the heatmap *)

Lemma quot2_between (a b : Z) : a <= b -> a <= Z.quot (a + b) 2 <= b.
Proof.
  intros Hab.
  pose proof (Z.quot_rem' (a + b) 2) as E.
  pose proof (Z.rem_bound_abs (a + b) 2 ltac:(lia)) as B.
  lia.
Qed.


Lemma Qtrunc_floor (q : Q) : (0 <= q)%Q -> Qtrunc q = Qfloor q.
Proof.
  destruct q as [n d]. unfold Qle, Qtrunc, Qfloor. simpl. intros Hn.
  apply Z.quot_div_nonneg; lia.
Qed.

Section DisplayOrder.
Context `{Backend}.

Lemma display_value (m h : Z) :
  0 < m -> 0 <= h <= m ->
  HeatmapAnnotator.display m h = Qfloor (100 - inject_Z h / inject_Z m * 90)%Q.
Proof.
  intros Hm Hh.
  destruct (ratio_bounds h m Hm Hh) as [Hlo Hhi].
  assert (Hf : Qtrunc (100 - inject_Z h / inject_Z m * 90)%Q
               = Qfloor (100 - inject_Z h / inject_Z m * 90)%Q)
    by (apply Qtrunc_floor; lra).
  assert (B : 10 <= Qtrunc (100 - inject_Z h / inject_Z m * 90)%Q <= 100).
  { apply Qtrunc_between; [lia | |].
    - change (inject_Z 10) with 10%Q. lra.
    - change (inject_Z 100) with 100%Q. lra. }
  unfold HeatmapAnnotator.display, fdiv.
  destruct (Z.eqb_spec m 0); [lia |].
  cbn [fmul90 frsub100 HeatmapAnnotator.astype_uint8].
  rewrite Z.mod_small by lia. exact Hf.
Qed.

(** The maximum itself shows 10. *)
Lemma display_hot (m : Z) : 0 < m -> HeatmapAnnotator.display m m = 10.
Proof.
  intros Hm.
  assert (Hmq : (0 < inject_Z m)%Q) by (unfold Qlt; simpl; lia).
  rewrite display_value by lia.
  assert (Hone : (inject_Z m / inject_Z m == 1)%Q).
  { unfold Qdiv. apply Qmult_inv_r. intros E. rewrite E in Hmq. inversion Hmq. }
  assert (Hq : (100 - inject_Z m / inject_Z m * 90 == 10)%Q) by (rewrite Hone; lra).
  rewrite Hq. reflexivity.
Qed.


End DisplayOrder.

(** ** More on the accumulator *)

Section HeatMore.
Context `{Backend}.

(** The hottest pixels.  When [annotate] returns with no kernel
    configured and some pixel covered so far, a pixel holding the
    maximum of the accumulator has display value 10 and becomes the
    blend of the colour of 10 with its base pixel. *)
Theorem heatmap_hottest_pixel (self : HeatmapAnnotator) (scene scene' : Scene)
    (detections : Detections) (heat : ndarray Z) (m : Z) (i j : nat) :
  reachable self ->
  fits self (shape scene) ->
  kernel_size self = None ->
  snd (HeatmapAnnotator.annotate self scene detections) = Ok scene' ->
  heatmask (fst (HeatmapAnnotator.annotate self scene detections)) = Some heat ->
  np_max heat = Ok m -> 0 < m ->
  (i < nrows scene)%nat -> (j < ncols scene)%nat ->
  px heat i j = m ->
  px scene' i j = blend self 10 (px scene i j).
Proof.
  intros Hreach Hfit Hk Hret Hh Hm Hpos Hi Hj Hhot.
  destruct (annotate_returns self scene scene' detections Hret) as [_ Hrender].
  destruct (annotate_step self scene detections Hfit)
    as (_ & _ & Hk' & Ho & heat' & Hh' & Hs & _).
  rewrite Hh in Hh'. injection Hh' as <-.
  set (self' := fst (HeatmapAnnotator.annotate self scene detections)) in *.
  assert (Ht : HeatmapAnnotator.display_field self' heat
               = Ok (array_map (HeatmapAnnotator.display m) heat)).
  { apply display_field_plain; [rewrite Hk'; exact Hk | exact Hm]. }
  destruct (render_pixels self' scene heat _ Hh Hs Ht) as (sc & Hsc & _ & Hpx).
  rewrite Hrender in Hsc. injection Hsc as <-.
  rewrite (Hpx i j Hi Hj). simpl. rewrite Hhot.
  rewrite (display_hot m Hpos).
  simpl. unfold blend. rewrite Ho. reflexivity.
Qed.

Lemma covered_same_detections (self : HeatmapAnnotator) (ds ds' : Detections)
    (i j : nat) :
  (forall d, In d ds <-> In d ds') -> covered self ds i j = covered self ds' i j.
Proof.
  intros Hsame. unfold covered.
  apply eq_true_iff_eq. rewrite !existsb_exists.
  split; intros (d & Hin & Hc); exists d; split; auto; apply Hsame; exact Hin.
Qed.

Lemma draw_circles_raises (self : HeatmapAnnotator) (ds : Detections) (mask : ndarray Z) :
  raises (HeatmapAnnotator.draw_circles self mask ds)
  = (radius self <? 0) && negb (bool_decide (ds = [])).
Proof.
  revert mask. induction ds as [| d ds IH]; intros mask; simpl.
  - rewrite andb_false_r. reflexivity.
  - unfold HeatmapAnnotator.cv2_circle.
    destruct (radius self <? 0) eqn:Hr; simpl; [reflexivity |].
    rewrite IH. reflexivity.
Qed.

(** Within one frame neither the order of the detections nor their
    repetition matters to the accumulator: two detection lists with
    the same members leave the same values, and the update block
    raises for the one exactly when it raises for the other. *)
Theorem heatmask_ignores_detection_order (self : HeatmapAnnotator) (scene : Scene)
    (ds ds' : Detections) (i j : nat) :
  (forall d, In d ds <-> In d ds') ->
  heat_at (fst (HeatmapAnnotator.annotate self scene ds)) i j
  = heat_at (fst (HeatmapAnnotator.annotate self scene ds')) i j
  /\ raises (snd (HeatmapAnnotator.accumulate self scene ds))
     = raises (snd (HeatmapAnnotator.accumulate self scene ds')).
Proof.
  intros Hsame. rewrite !annotate_fst.
  assert (Hnil : bool_decide (ds = []) = bool_decide (ds' = [])).
  { destruct ds as [| d ds], ds' as [| d' ds']; try reflexivity.
    - destruct (proj2 (Hsame d') (or_introl eq_refl)).
    - destruct (proj1 (Hsame d) (or_introl eq_refl)). }
  pose proof (draw_circles_raises self ds (np_zeros (shape scene))) as R.
  pose proof (draw_circles_raises self ds' (np_zeros (shape scene))) as R'.
  rewrite <- Hnil in R'.
  unfold HeatmapAnnotator.accumulate. fold (initial_heat self scene).
  rewrite !draw_circles_set_heatmask.
  destruct (HeatmapAnnotator.draw_circles self (np_zeros (shape scene)) ds)
    as [mask | e] eqn:Hd;
    destruct (HeatmapAnnotator.draw_circles self (np_zeros (shape scene)) ds')
      as [mask' | e'] eqn:Hd';
    simpl in R, R'; try (rewrite <- R in R'; discriminate R').
  - apply draw_circles_spec in Hd as [Hs Hpx].
    apply draw_circles_spec in Hd' as [Hs' Hpx'].
    assert (Hdims : nrows mask = nrows mask' /\ ncols mask = ncols mask').
    { unfold shape in Hs, Hs'. injection Hs as -> ->. injection Hs' as -> ->. auto. }
    destruct Hdims as [Hnr Hnc].
    unfold np_add. rewrite <- Hnr, <- Hnc.
    destruct (broadcast_dim (nrows mask) (nrows (initial_heat self scene)));
      [| simpl; auto].
    destruct (broadcast_dim (ncols mask) (ncols (initial_heat self scene)));
      [| simpl; auto].
    simpl. split; [| reflexivity].
    unfold heat_at. simpl. rewrite Hpx, Hpx'.
    rewrite (covered_same_detections self ds ds' _ _ Hsame). reflexivity.
  - simpl. auto.
Qed.

Lemma frames_covering_perm (self : HeatmapAnnotator) (fs fs' : list Detections)
    (i j : nat) :
  Permutation fs fs' -> frames_covering self fs i j = frames_covering self fs' i j.
Proof.
  unfold frames_covering.
  induction 1 as [| x l l' _ IH | x y l | l l' l'' _ IH1 _ IH2]; simpl.
  - reflexivity.
  - destruct (covered self x i j); simpl; rewrite IH; reflexivity.
  - destruct (covered self x i j), (covered self y i j); reflexivity.
  - rewrite IH1. exact IH2.
Qed.

(** Frames of one shape may come in any order: the accumulator ends
    with the same values. *)
Theorem heatmask_ignores_frame_order (self : HeatmapAnnotator)
    (frames frames' : list (Scene * Detections)) (s : nat * nat) (i j : nat) :
  fits self s -> 0 <= radius self ->
  Forall (fun f => shape (fst f) = s) frames ->
  Permutation frames frames' ->
  (i < fst s)%nat -> (j < snd s)%nat ->
  heat_at (feed self frames) i j = heat_at (feed self frames') i j.
Proof.
  intros Hfit Hr Hall Hperm Hi Hj.
  assert (Hall' : Forall (fun f => shape (fst f) = s) frames').
  { rewrite Forall_forall in *. intros f Hin. apply Hall.
    apply (Permutation_in f (Permutation_sym Hperm)). exact Hin. }
  rewrite (feed_counts_frames self frames s i j Hfit Hr Hall Hi Hj).
  rewrite (feed_counts_frames self frames' s i j Hfit Hr Hall' Hi Hj).
  rewrite (frames_covering_perm self (map snd frames) (map snd frames') i j);
    [reflexivity |].
  apply Permutation_map. exact Hperm.
Qed.

(** A call raises a value of the accumulator by at most one, so after
    [n] frames of one shape a value has grown by at most [n]. *)
Theorem heatmask_bounded_by_frames (self : HeatmapAnnotator)
    (frames : list (Scene * Detections)) (s : nat * nat) (i j : nat) :
  fits self s ->
  Forall (fun f => shape (fst f) = s) frames ->
  (i < fst s)%nat -> (j < snd s)%nat ->
  heat_at (feed self frames) i j <= heat_at self i j + Z.of_nat (length frames).
Proof.
  intros Hfit Hall Hi Hj. revert self Hfit.
  induction Hall as [| f frames Hf Hall IH]; intros self Hfit.
  - simpl. lia.
  - assert (Hfit' : fits self (shape (fst f))) by (rewrite Hf; exact Hfit).
    destruct (annotate_step self (fst f) (snd f) Hfit')
      as (_ & _ & _ & _ & h' & Hh' & _ & Hcases).
    assert (Hstep : heat_at (fst (HeatmapAnnotator.annotate self (fst f) (snd f))) i j
                    <= heat_at self i j + 1).
    { unfold heat_at at 1. rewrite Hh'.
      destruct Hcases as [[_ ->] | [_ Hpx]].
      - rewrite initial_heat_at. lia.
      - rewrite Hpx.
        + destruct (covered self (snd f) i j); lia.
        + change (nrows (fst f)) with (fst (shape (fst f))). rewrite Hf. exact Hi.
        + change (ncols (fst f)) with (snd (shape (fst f))). rewrite Hf. exact Hj. }
    change (feed self (f :: frames))
      with (feed (fst (HeatmapAnnotator.annotate self (fst f) (snd f))) frames).
    specialize (IH (fst (HeatmapAnnotator.annotate self (fst f) (snd f)))).
    cbn [length]. rewrite Nat2Z.inj_succ.
    etransitivity; [apply IH |].
    + rewrite <- Hf. apply annotate_fits. exact Hfit'.
    + lia.
Qed.


Lemma indices_empty (h w : nat) : (h = 0 \/ w = 0)%nat -> indices h w = [].
Proof.
  intros Hz. destruct (indices h w) as [| [i j] rest] eqn:E; [reflexivity |].
  assert (Hin : (i, j) ∈ indices h w) by (rewrite E; apply list_elem_of_here).
  apply elem_of_indices in Hin. lia.
Qed.

(** A frame without pixels, fed without detections to an annotator
    that has no accumulator yet, makes [annotate] raise [ValueError]:
    the maximum of an empty accumulator does not exist. *)
Theorem heatmap_empty_frame_raises (self : HeatmapAnnotator) (scene : Scene) :
  heatmask self = None ->
  (nrows scene = 0 \/ ncols scene = 0)%nat ->
  snd (HeatmapAnnotator.annotate self scene []) = Raise ValueError.
Proof.
  intros Hnone Hempty.
  assert (Hfit : fits self (shape scene)) by (intros h Hh; congruence).
  destruct (annotate_step self scene [] Hfit)
    as (_ & _ & _ & _ & h' & Hh' & Hs & Hcases).
  rewrite annotate_snd.
  destruct Hcases as [[Hraise _] | [Hok _]].
  - simpl in Hraise. discriminate.
  - destruct (snd (HeatmapAnnotator.accumulate self scene [])) as [[] | e];
      [| discriminate].
    simpl. rewrite <- annotate_fst. unfold HeatmapAnnotator.render. rewrite Hh'.
    unfold HeatmapAnnotator.display_field, np_max, elements.
    assert (Hdims : nrows h' = nrows scene /\ ncols h' = ncols scene).
    { unfold shape in Hs. injection Hs as -> ->. auto. }
    destruct Hdims as [-> ->].
    rewrite (indices_empty _ _ Hempty). reflexivity.
Qed.

End HeatMore.

(** ** Labels *)

Lemma label_background_extent (x1 y1 x2 y2 tw th pad : Z) (p : Position) (box : Box) :
  LabelAnnotator.resolve_text_background_xyxy (x1, y1, x2, y2) (tw, th) pad p = Some box ->
  tw + 2 * pad - 1 <= bx2 box - bx1 box <= tw + 2 * pad
  /\ th + 2 * pad - 1 <= by2 box - by1 box <= th + 2 * pad.
Proof.
  intros Hbox.
  pose proof (Z.div_mod (tw + 2 * pad) 2 ltac:(lia)) as Ew.
  pose proof (Z.mod_pos_bound (tw + 2 * pad) 2 ltac:(lia)) as Bw.
  pose proof (Z.div_mod (th + 2 * pad) 2 ltac:(lia)) as Eh.
  pose proof (Z.mod_pos_bound (th + 2 * pad) 2 ltac:(lia)) as Bh.
  destruct p; simpl in Hbox; try discriminate; injection Hbox as <-; simpl; lia.
Qed.



Section Labels.
Context `{Drawing} `{Colours}.


End Labels.

(** ** Box corners *)


(** A box of zero width sends all four horizontal strokes to the
    right of it; none runs to the left. *)
Theorem corner_strokes_flat_box (x y1 y2 len : Z) (s : Point * Point) :
  In s (BoxCornerAnnotator.strokes (x, y1, x, y2) len) ->
  snd (fst s) = snd (snd s) ->
  0 < len ->
  fst (fst s) = x /\ fst (snd s) = x + len.
Proof.
  intros Hin Hhoriz Hl.
  unfold BoxCornerAnnotator.strokes, BoxCornerAnnotator.corners,
    BoxCornerAnnotator.corner_strokes in Hin.
  simpl in Hin. rewrite !Z.eqb_refl in Hin.
  destruct (y2 =? y1); simpl in Hin;
    repeat (destruct Hin as [<- | Hin]; [simpl in *; lia |]);
    destruct Hin.
Qed.

(** ** Circles *)


(** ** Blurred regions *)

Section Blur.
Context `{Drawing}.

Lemma in_slice_nonneg (lo hi : Z) (len i : nat) :
  0 <= lo -> 0 <= hi -> (i < len)%nat ->
  BlurAnnotator.in_slice lo hi len i = (lo <=? Z.of_nat i) && (Z.of_nat i <? hi).
Proof.
  intros Hlo Hhi Hi. unfold BlurAnnotator.in_slice, BlurAnnotator.slice_bound.
  destruct (Z.ltb_spec lo 0); [lia |]. destruct (Z.ltb_spec hi 0); [lia |].
  apply eq_true_iff_eq.
  rewrite !andb_true_iff, Nat.leb_le, Nat.ltb_lt, Z.leb_le, Z.ltb_lt. lia.
Qed.

Lemma write_roi_outside (scene : Scene) (b : Box) (values : nat -> nat -> BGR)
    (i j : nat) :
  0 <= bx1 b -> 0 <= by1 b -> 0 <= bx2 b -> 0 <= by2 b ->
  (i < nrows scene)%nat -> (j < ncols scene)%nat ->
  in_box b i j = false ->
  px (BlurAnnotator.write_roi scene b values) i j = px scene i j.
Proof.
  intros Hx1 Hy1 Hx2 Hy2 Hi Hj Hout. unfold BlurAnnotator.write_roi. simpl.
  rewrite (in_slice_nonneg (by1 b) (by2 b)), (in_slice_nonneg (bx1 b) (bx2 b))
    by assumption.
  unfold in_box in Hout. rewrite <- andb_assoc in Hout. rewrite Hout. reflexivity.
Qed.

(** When the blur annotator returns, the frame has kept its shape and
    every pixel outside all the boxes is the pixel of the base frame
    (boxes with non-negative coordinates; the box is half-open, its
    right and bottom edges excluded).  Without detections the frame is
    returned as it is. *)
Theorem blur_leaves_outside_untouched (kernel_size : Z) (scene scene' : Scene)
    (detections : Detections) :
  Forall (fun d => 0 <= bx1 (xyxy d) /\ 0 <= by1 (xyxy d)
                   /\ 0 <= bx2 (xyxy d) /\ 0 <= by2 (xyxy d)) detections ->
  BlurAnnotator.annotate kernel_size scene detections = Ok scene' ->
  shape scene' = shape scene
  /\ (forall i j, (i < nrows scene)%nat -> (j < ncols scene)%nat ->
        (forall d, In d detections -> in_box (xyxy d) i j = false) ->
        px scene' i j = px scene i j)
  /\ BlurAnnotator.annotate kernel_size scene [] = Ok scene.
Proof.
  intros Hall. revert scene.
  induction Hall as [| d ds (Hx1 & Hy1 & Hx2 & Hy2) Hall IH]; intros scene Hret.
  - simpl in Hret. injection Hret as <-. auto.
  - simpl in Hret.
    destruct (cv2_blur (BlurAnnotator.roi scene (xyxy d)) kernel_size)
      as [blurred | e]; simpl in Hret; [| discriminate].
    destruct (IH _ Hret) as (Hshape & Hpx & _).
    split; [exact Hshape |]. split; [| reflexivity].
    intros i j Hi Hj Hout.
    rewrite Hpx.
    + apply write_roi_outside; try assumption.
      apply Hout. left. reflexivity.
    + exact Hi.
    + exact Hj.
    + intros d' Hin. apply Hout. right. exact Hin.
Qed.

End Blur.

(** ** Keypoints: what construction accepts *)

Lemma keypoints_new_value (kp : Shape) (conf : option Shape) (k : Keypoints) :
  Keypoints.new kp conf = Ok k -> k = mk_keypoints kp conf.
Proof.
  unfold Keypoints.new.
  destruct (Keypoints.__post_init__ (mk_keypoints kp conf)); simpl;
    [intros [= <-]; reflexivity | discriminate].
Qed.


(** An array of rank zero, or of rank one with elements, is rejected
    with [TypeError] from [len], before the shape is looked at; every
    other rejected array gets the [ValueError] of the validators. *)
Theorem keypoints_rejection_kinds (kp : Shape) (conf : option Shape) (e : exn) :
  Keypoints.new kp conf = Raise e ->
  (e = TypeError <-> kp = [] \/ exists n, kp = [S n])
  /\ (e <> TypeError -> e = ValueError).
Proof.
  unfold Keypoints.new, Keypoints.__post_init__. simpl.
  destruct kp as [| n rest]; simpl.
  - intros [= <-]. split; [| congruence]. split; auto.
  - destruct n as [| n]; simpl.
    + unfold _validate_keypoint_structure.
      destruct (negb _); simpl.
      * intros [= <-]. split; [| auto].
        split; [discriminate |]. intros [Hnil | [k Hk]]; discriminate.
      * destruct conf as [c |]; simpl; [| discriminate].
        destruct (negb _); simpl; [| discriminate].
        intros [= <-]. split; [| auto].
        split; [discriminate |]. intros [Hnil | [k Hk]]; discriminate.
    + destruct rest as [| m rest]; simpl.
      * intros [= <-]. split; [| congruence]. split; eauto.
      * unfold _validate_keypoint_structure.
        destruct (negb _); simpl.
        -- intros [= <-]. split; [| auto].
           split; [discriminate |]. intros [Hnil | [k Hk]]; discriminate.
        -- destruct conf as [c |]; simpl; [| discriminate].
           destruct (negb _); simpl; [| discriminate].
           intros [= <-]. split; [| auto].
           split; [discriminate |]. intros [Hnil | [k Hk]]; discriminate.
Qed.

Lemma keypoints_stacked_raises (n : nat) (rest : Shape) (conf : option Shape) (e : exn) :
  n = 0%nat \/ rest <> [] ->
  Keypoints.new (n :: rest) conf = Raise e -> e = ValueError.
Proof.
  intros Hshape. unfold Keypoints.new, Keypoints.__post_init__. simpl.
  assert (Hm : exists m, (if (0 <? n)%nat then py_len rest else Ok 0%nat) = Ok m).
  { destruct (0 <? n)%nat eqn:Hn; [| eauto].
    destruct rest as [| m rest]; [| simpl; eauto].
    destruct Hshape as [-> | Hne]; [discriminate | contradiction]. }
  destruct Hm as [m Hm].
  change (getitem0 (n :: rest)) with rest. rewrite Hm. simpl.
  unfold _validate_keypoint_structure.
  destruct (negb _); simpl; [intros [= <-]; reflexivity |].
  destruct conf as [c |]; simpl; [| discriminate].
  destruct (negb _); simpl; [intros [= <-]; reflexivity | discriminate].
Qed.

(** ** Keypoints from MediaPipe *)

Lemma forallb_shape_eqb (s : Shape) (rows : list Shape) :
  forallb (shape_eqb s) rows = true <-> Forall (fun r => r = s) rows.
Proof.
  rewrite forallb_forall, Forall_forall. split; intros Hall r Hin.
  - symmetry. apply shape_eqb_true. apply Hall. exact Hin.
  - apply shape_eqb_true. symmetry. apply Hall. exact Hin.
Qed.

Lemma np_array_shape_ok (rows : list Shape) (result_shape : Shape) :
  np_array_shape rows = Ok result_shape <->
  (rows = [] /\ result_shape = [0%nat])
  \/ (exists s, rows <> [] /\ Forall (fun r => r = s) rows
                /\ result_shape = length rows :: s).
Proof.
  unfold np_array_shape. destruct rows as [| s rest].
  - split.
    + intros [= <-]. left. auto.
    + intros [[_ ->] | (s & Hne & _)]; [reflexivity | contradiction].
  - destruct (forallb (shape_eqb s) rest) eqn:E.
    + apply forallb_shape_eqb in E. split.
      * intros [= <-]. right. exists s. split; [discriminate |].
        split; [constructor; auto | reflexivity].
      * intros [[Hnil _] | (s' & _ & Hall & ->)]; [discriminate |].
        inversion Hall; subst. reflexivity.
    + split; [discriminate |].
      intros [[Hnil _] | (s' & _ & Hall & ->)]; [discriminate |].
      inversion Hall as [| ? ? Hs Hrest]; subst.
      apply forallb_shape_eqb in Hrest. congruence.
Qed.

Lemma np_array_shape_raises (rows : list Shape) (e : exn) :
  np_array_shape rows = Raise e -> e = ValueError.
Proof.
  unfold np_array_shape. destruct rows as [| s rest]; [discriminate |].
  destruct (forallb _ _); [discriminate | intros [= <-]; reflexivity].
Qed.

(** The row of one pose: its landmarks as triples. *)
Lemma pose_row_shape (pose : list Landmark) :
  np_array2 (map (fun item => [landmark_x item; landmark_y item; landmark_z item]) pose)
  = Ok (match pose with [] => [0%nat] | _ => [length pose; 3%nat] end).
Proof.
  unfold np_array2. rewrite map_map. simpl.
  destruct pose as [| l pose]; [reflexivity |].
  apply np_array_shape_ok. right. exists [3%nat].
  split; [discriminate |]. split.
  - apply Forall_forall. intros r Hin. apply in_map_iff in Hin as (x & <- & _).
    reflexivity.
  - cbn [length map]. rewrite length_map. reflexivity.
Qed.

Lemma pose_rows_shapes (poses : list (list Landmark)) :
  mapM np_array2
    (map (fun pose =>
            map (fun item => [landmark_x item; landmark_y item; landmark_z item]) pose)
       poses)
  = Ok (map (fun pose => match pose with
                         | [] => [0%nat]
                         | _ => [length pose; 3%nat]
                         end) poses).
Proof.
  induction poses as [| p poses IH]; [reflexivity |].
  cbn [map mapM]. rewrite pose_row_shape. simpl.
  change (mbind ?f (mapM np_array2 ?l)) with (bind (mapM np_array2 l) f).
  rewrite IH. reflexivity.
Qed.

(** [from_mediapipe] returns keypoints exactly when at least one pose
    was detected and all poses have the same, positive, number of
    landmarks; the keypoints then have shape (poses, landmarks, 3), a
    confidence of shape (poses, landmarks), and the number of poses as
    their length.  In every other case, a result without poses
    included, it raises [ValueError]. *)
Theorem from_mediapipe_result (poses : list (list Landmark)) :
  (forall k, from_mediapipe poses = Ok k ->
     exists L, (0 < L)%nat /\ poses <> [] /\ Forall (fun p => length p = L) poses
               /\ keypoints k = [length poses; L; 3%nat]
               /\ confidence k = Some [length poses; L]
               /\ Keypoints.__len__ k = Ok (length poses))
  /\ (forall L, (0 < L)%nat -> poses <> [] -> Forall (fun p => length p = L) poses ->
        exists k, from_mediapipe poses = Ok k)
  /\ (forall e, from_mediapipe poses = Raise e -> e = ValueError)
  /\ from_mediapipe [] = Raise ValueError.
Proof.
  assert (Hrun : from_mediapipe poses
                 = (kp ← np_array_shape
                           (map (fun pose => match pose with
                                             | [] => [0%nat]
                                             | _ => [length pose; 3%nat]
                                             end) poses);
                    c ← np_array_shape (map (fun pose => [length pose]) poses);
                    Keypoints.new kp (Some c))).
  { unfold from_mediapipe, np_array3. rewrite pose_rows_shapes.
    unfold np_array2. rewrite map_map.
    replace (map (fun x => [length (map visibility x)]) poses)
      with (map (fun pose : list Landmark => [length pose]) poses).
    - reflexivity.
    - apply map_ext. intros p. rewrite length_map. reflexivity. }
  set (rows3 := map (fun pose : list Landmark =>
                       match pose with
                       | [] => [0%nat]
                       | _ => [length pose; 3%nat]
                       end) poses) in Hrun.
  set (rows2 := map (fun pose : list Landmark => [length pose]) poses) in Hrun.
  assert (Hrow3 : forall p, In p poses ->
                    In (match p with [] => [0%nat] | _ => [length p; 3%nat] end) rows3).
  { intros p Hp. unfold rows3.
    apply (in_map (fun pose : list Landmark =>
                     match pose with
                     | [] => [0%nat]
                     | _ => [length pose; 3%nat]
                     end)). exact Hp. }
  assert (Hrow2 : forall p, In p poses -> In [length p] rows2).
  { intros p Hp. unfold rows2.
    apply (in_map (fun pose : list Landmark => [length pose])). exact Hp. }
  assert (Hlen3 : length rows3 = length poses) by (unfold rows3; apply length_map).
  assert (Hlen2 : length rows2 = length poses) by (unfold rows2; apply length_map).
  assert (Hstack : forall L, (0 < L)%nat -> poses <> [] ->
                     Forall (fun p => length p = L) poses ->
                     np_array_shape rows3 = Ok [length poses; L; 3%nat]
                     /\ np_array_shape rows2 = Ok [length poses; L]).
  { intros L HL Hne Hall. rewrite Forall_forall in Hall. split.
    - apply np_array_shape_ok. right. exists [L; 3%nat].
      split; [intros E; rewrite E in Hlen3; destruct poses; [contradiction | discriminate] |].
      split; [| f_equal; symmetry; exact Hlen3].
      apply Forall_forall. intros r Hin. unfold rows3 in Hin.
      apply in_map_iff in Hin as (p & <- & Hp).
      specialize (Hall p Hp). destruct p; simpl in *; [lia | rewrite Hall; reflexivity].
    - apply np_array_shape_ok. right. exists [L].
      split; [intros E; rewrite E in Hlen2; destruct poses; [contradiction | discriminate] |].
      split; [| f_equal; symmetry; exact Hlen2].
      apply Forall_forall. intros r Hin. unfold rows2 in Hin.
      apply in_map_iff in Hin as (p & <- & Hp).
      rewrite (Hall p Hp). reflexivity. }
  split; [| split; [| split]].
  - intros k Hk. rewrite Hrun in Hk.
    destruct (np_array_shape rows3) as [kp |] eqn:Ekp; simpl in Hk; [| discriminate].
    destruct (np_array_shape rows2) as [c |] eqn:Ec; simpl in Hk; [| discriminate].
    pose proof (keypoints_new_value _ _ _ Hk) as ->.
    assert (Hr : raises (Keypoints.new kp (Some c)) = false) by (rewrite Hk; reflexivity).
    apply keypoints_new_ok in Hr as (n & m & d & -> & Hd & Hm & Hc).
    apply np_array_shape_ok in Ekp as [[_ Hbad] | (s & Hne & Hall & Hshape)];
      [discriminate |].
    injection Hshape as Hn <-. pose proof (eq_trans Hn Hlen3) as Hn'.
    clear Hn. subst n.
    rewrite Forall_forall in Hall.
    assert (Hposes : poses <> []).
    { intros E. apply Hne. unfold rows3. rewrite E. reflexivity. }
    assert (Hlen : forall p, In p poses -> length p = m /\ d = 3%nat /\ (0 < m)%nat).
    { intros p Hp. specialize (Hall _ (Hrow3 p Hp)).
      destruct p; [discriminate |]. injection Hall as <- <-.
      simpl. repeat split; lia. }
    assert (Hex : exists p0, In p0 poses).
    { clear - Hposes. destruct poses as [| p0 ps]; [contradiction |].
      exists p0. left. reflexivity. }
    destruct Hex as [p0 Hp0].
    destruct (Hlen p0 Hp0) as (Hm0 & -> & Hpos).
    exists m. split; [exact Hpos |]. split; [exact Hposes |]. split.
    { apply Forall_forall. intros p Hp. apply Hlen. exact Hp. }
    destruct (Hstack m Hpos Hposes) as [_ Ec'].
    { apply Forall_forall. intros p Hp. apply Hlen. exact Hp. }
    assert (Hcv : c = [length poses; m]) by congruence. subst c.
    split; [reflexivity |]. split; reflexivity.
  - intros L HL Hne Hall. rewrite Hrun.
    destruct (Hstack L HL Hne Hall) as [Ekp Ec].
    rewrite Ekp, Ec. simpl.
    assert (Hr : raises (Keypoints.new [length poses; L; 3%nat] (Some [length poses; L]))
                 = false).
    { apply keypoints_new_ok. exists (length poses), L, 3%nat.
      repeat split; auto.
      intros Hz. destruct poses; [contradiction | discriminate]. }
    destruct (Keypoints.new _ _) as [k |]; [eauto | discriminate].
  - intros e He. rewrite Hrun in He.
    destruct (np_array_shape rows3) as [kp |] eqn:Ekp; simpl in He.
    + destruct (np_array_shape rows2) as [c |] eqn:Ec; simpl in He.
      * apply np_array_shape_ok in Ekp as [[_ ->] | (s & Hne & Hall & ->)].
        -- apply (keypoints_stacked_raises 0 [] (Some c) e); [left; reflexivity | exact He].
        -- apply (keypoints_stacked_raises (length rows3) s (Some c) e); [| exact He].
           right. intros ->.
           assert (Hex : exists p0, In p0 poses).
           { destruct poses as [| p0 ps]; [exfalso; apply Hne; reflexivity |].
             exists p0. left. reflexivity. }
           destruct Hex as [p0 Hp0].
           rewrite Forall_forall in Hall.
           specialize (Hall _ (Hrow3 p0 Hp0)).
           destruct p0; discriminate.
      * injection He as <-. eapply np_array_shape_raises. exact Ec.
    + injection He as <-. eapply np_array_shape_raises. exact Ekp.
  - reflexivity.
Qed.

(** ** The position of the trace annotator *)

Section TracePosition.
Context `{Backend} `{Colours}.

Lemma draw_traces_position (a1 a2 : TraceAnnotator) (detections todo : Detections)
    (idx : nat) (scene : Scene) :
  color a1 = color a2 -> trace a1 = trace a2 -> thickness a1 = thickness a2 ->
  color_map a1 = color_map a2 ->
  TraceAnnotator.draw_traces a1 detections idx todo scene
  = TraceAnnotator.draw_traces a2 detections idx todo scene.
Proof.
  intros Hc Ht Hth Hcm. revert idx scene.
  induction todo as [| d rest IH]; intros idx scene; simpl; [reflexivity |].
  destruct (py_int (tracker_id d)); simpl; [| reflexivity].
  rewrite Hc, Ht, Hth, Hcm. apply IH.
Qed.

(** The [position] given to the trace annotator has no effect: the
    constructor does not pass it to the buffer and [annotate] never
    reads it.  Two annotators constructed with the same arguments but
    for the position hold the same histories after any sequence of
    frames, and return or raise alike on every further call. *)
Theorem trace_position_ignored (c : ColourSpec) (p1 p2 : option Position)
    (trace_length thick : Z) (cm : string) (a1 a2 : TraceAnnotator)
    (frames : list (Scene * Detections)) (scene : Scene) (detections : Detections) :
  TraceAnnotator.__init__ c p1 trace_length thick cm = Ok a1 ->
  TraceAnnotator.__init__ c p2 trace_length thick cm = Ok a2 ->
  trace (trace_feed a1 frames) = trace (trace_feed a2 frames)
  /\ snd (TraceAnnotator.annotate (trace_feed a1 frames) scene detections)
     = snd (TraceAnnotator.annotate (trace_feed a2 frames) scene detections).
Proof.
  intros H1 H2.
  assert (Hagree : color a1 = color a2 /\ trace a1 = trace a2
                   /\ thickness a1 = thickness a2 /\ color_map a1 = color_map a2).
  { unfold TraceAnnotator.__init__ in H1, H2.
    destruct (Trace.__init__ trace_length TraceAnnotator.default_anchor); simpl in *;
      [| discriminate].
    destruct (ColorMap_of_string cm); simpl in *; [| discriminate].
    injection H1 as <-. injection H2 as <-. auto. }
  clear H1 H2.
  assert (Hfeed : color (trace_feed a1 frames) = color (trace_feed a2 frames)
                  /\ trace (trace_feed a1 frames) = trace (trace_feed a2 frames)
                  /\ thickness (trace_feed a1 frames) = thickness (trace_feed a2 frames)
                  /\ color_map (trace_feed a1 frames) = color_map (trace_feed a2 frames)).
  { revert a1 a2 Hagree. induction frames as [| f frames IH]; intros a1 a2 Hagree.
    - exact Hagree.
    - apply IH. destruct Hagree as (Hc & Ht & Hth & Hcm).
      unfold TraceAnnotator.annotate. simpl. rewrite Hc, Ht, Hth, Hcm. auto. }
  destruct Hfeed as (Hc & Ht & Hth & Hcm).
  split; [exact Ht |].
  unfold TraceAnnotator.annotate. simpl.
  apply draw_traces_position; simpl; congruence.
Qed.

End TracePosition.

(** ** Masks *)

Section Masks.
Context `{Sorting} `{Colours}.

Lemma paint_same_shape (opacity : Q) (colour : BGR) (mask : ndarray bool)
    (scene : Scene) :
  shape mask = shape scene ->
  exists scene', MaskAnnotator.paint opacity colour mask scene = Ok scene'
                 /\ shape scene' = shape scene
                 /\ forall i j, (i < nrows scene)%nat -> (j < ncols scene)%nat ->
                      px scene' i j
                      = if px mask i j
                        then MaskAnnotator.mix_bgr opacity colour (px scene i j)
                        else px scene i j.
Proof.
  unfold shape. intros [= Hr Hc]. unfold MaskAnnotator.paint.
  rewrite Hr, Hc, !broadcast_dim_same.
  eexists. split; [reflexivity |]. split; [reflexivity |].
  intros i j Hi Hj. simpl. rewrite !broadcast_idx_id by assumption. reflexivity.
Qed.

(** Without masks the mask annotator returns the frame as it is.  With
    masks of the frame's shape, when it returns, the frame has kept its
    shape and every pixel that no painted mask covers is the pixel of
    the base frame, whatever the order [argsort] gives. *)
Theorem mask_leaves_outside_untouched (self : MaskAnnotator) (scene scene' : Scene)
    (detections : Detections) (masks : list (ndarray bool)) (area : list Q) :
  Forall (fun m => shape m = shape scene) masks ->
  MaskAnnotator.annotate self scene detections (Some masks) area = Ok scene' ->
  MaskAnnotator.annotate self scene detections None area = Ok scene
  /\ shape scene' = shape scene
  /\ forall i j, (i < nrows scene)%nat -> (j < ncols scene)%nat ->
       (forall m, In m masks -> px m i j = false) ->
       px scene' i j = px scene i j.
Proof.
  intros Hall Hret. split; [reflexivity |].
  unfold MaskAnnotator.annotate in Hret.
  revert scene Hall Hret.
  induction (rev (np_argsort area)) as [| k order IH]; intros scene Hall Hret.
  - simpl in Hret. injection Hret as <-. auto.
  - simpl in Hret.
    destruct (masks !! k) as [m |] eqn:Hm; [| discriminate].
    assert (Hin : In m masks).
    { apply list_elem_of_In. apply list_elem_of_lookup. eauto. }
    assert (Hms : shape m = shape scene).
    { rewrite Forall_forall in Hall. apply Hall. exact Hin. }
    destruct (paint_same_shape (mask_opacity self)
                (resolve_color (mask_color self)
                   (resolve_color_idx detections k (mask_color_map self)))
                m scene Hms) as (sc & Hsc & Hshape & Hpx).
    rewrite Hsc in Hret. simpl in Hret.
    assert (Hdims : nrows sc = nrows scene /\ ncols sc = ncols scene).
    { unfold shape in Hshape. injection Hshape as -> ->. auto. }
    destruct Hdims as [Hnr Hnc].
    destruct (IH sc) as [Hs' Hpx'].
    + eapply Forall_impl; [| exact Hall]. intros a Ha. simpl in Ha. congruence.
    + exact Hret.
    + split; [congruence |].
      intros i j Hi Hj Hout.
      rewrite Hpx' by (try lia; exact Hout).
      rewrite Hpx by assumption. rewrite (Hout m Hin). reflexivity.
Qed.

End Masks.
Import Reference.

(** The colour of a cold pixel, hue 100 of 180. *)
Example hsv_hue_100 : Reference.HSV2BGR (100, 255, 255) = (255, 170, 0).
Proof. vm_compute. reflexivity. Qed.



(** Monotonicity on two frames followed by one more. *)
Lemma heatmask_monotone_witness :
  exists self : HeatmapAnnotator,
    HeatmapAnnotator.__init__ (Some BOTTOM_CENTER) (1 # 5) 1 None = Ok self
    /\ 0 <= heat_at (feed self [(solid 3 3 (0, 0, 0), [boxed (0, 0, 2, 1)]);
                                (solid 3 3 (9, 9, 9), [])]) 1 1
       <= heat_at (feed (feed self [(solid 3 3 (0, 0, 0), [boxed (0, 0, 2, 1)]);
                                    (solid 3 3 (9, 9, 9), [])])
                     [(solid 3 3 (0, 0, 0), [boxed (0, 0, 2, 1)])]) 1 1.
Proof.
  eexists. split; [reflexivity |].
  assert (Hreach : reachable (mk_heatmap (Some BOTTOM_CENTER) (1 # 5) 1 None None)).
  { apply (reach_init (Some BOTTOM_CENTER) (1 # 5) 1 None). reflexivity. }
  assert (Hfit : fits (mk_heatmap (Some BOTTOM_CENTER) (1 # 5) 1 None None) (3, 3)%nat).
  { intros h Hh. discriminate Hh. }
  destruct (heatmask_monotone _
              [(solid 3 3 (0, 0, 0), [boxed (0, 0, 2, 1)]); (solid 3 3 (9, 9, 9), [])]
              [(solid 3 3 (0, 0, 0), [boxed (0, 0, 2, 1)])]
              (3, 3)%nat 1 1 Hreach Hfit) as (Hnn & Hmono & _).
  - repeat constructor.
  - repeat constructor.
  - simpl. lia.
  - simpl. lia.
  - split; assumption.
Defined.

(** The empty frame after one call on a 1 by 2 frame. *)
Lemma heatmask_empty_frame_identity_witness :
  exists (self0 : HeatmapAnnotator) (h h' : ndarray Z),
    HeatmapAnnotator.__init__ (Some BOTTOM_CENTER) (1 # 5) 1 None = Ok self0
    /\ heatmask (fst (HeatmapAnnotator.annotate self0 (solid 1 2 (0, 0, 0))
                        [boxed (0, 0, 0, 0)])) = Some h
    /\ shape (solid 1 2 (7, 7, 7)) = shape h
    /\ heatmask (fst (HeatmapAnnotator.annotate
                        (fst (HeatmapAnnotator.annotate self0 (solid 1 2 (0, 0, 0))
                                [boxed (0, 0, 0, 0)]))
                        (solid 1 2 (7, 7, 7)) [])) = Some h'
    /\ array_eq h' h.
Proof.
  eexists.
  destruct (heatmask_empty_frame_identity
              (mk_heatmap (Some BOTTOM_CENTER) (1 # 5) 1 None None)
              (solid 1 2 (0, 0, 0)) [boxed (0, 0, 0, 0)] (solid 1 2 (7, 7, 7)))
    as (h & Hh & Himp).
  assert (Hshape : shape (solid 1 2 (7, 7, 7)) = shape h).
  { vm_compute in Hh. injection Hh as <-. reflexivity. }
  destruct (Himp Hshape) as (_ & _ & h' & Hh' & Heq).
  exists h, h'. split; [reflexivity |]. repeat split; try assumption.
  - apply Heq.
  - apply Heq.
Defined.





(** * Further properties on concrete inputs *)

Import Plain.



Lemma heatmap_hottest_pixel_witness :
  exists (self : HeatmapAnnotator) (scene' : Scene),
    HeatmapAnnotator.__init__ (Some BOTTOM_CENTER) 1 1 None = Ok self
    /\ snd (HeatmapAnnotator.annotate self (solid 1 5 (0, 0, 0)) [boxed (0, 0, 0, 0)])
       = Ok scene'
    /\ px scene' 0 0 = blend self 10 (0, 0, 0).
Proof.
  exists (mk_heatmap (Some BOTTOM_CENTER) 1 1 None None).
  destruct (snd (HeatmapAnnotator.annotate
                   (mk_heatmap (Some BOTTOM_CENTER) 1 1 None None)
                   (solid 1 5 (0, 0, 0)) [boxed (0, 0, 0, 0)])) as [sc | e] eqn:E.
  - exists sc. split; [reflexivity |]. split; [reflexivity |].
    refine (heatmap_hottest_pixel
              (mk_heatmap (Some BOTTOM_CENTER) 1 1 None None)
              (solid 1 5 (0, 0, 0)) sc [boxed (0, 0, 0, 0)] _ 1 0 0
              _ _ eq_refl E eq_refl _ _ _ _ _).
    + apply (reach_init (Some BOTTOM_CENTER) 1 1 None). reflexivity.
    + intros h Hh. discriminate Hh.
    + vm_compute. reflexivity.
    + lia.
    + simpl. lia.
    + simpl. lia.
    + vm_compute. reflexivity.
  - exfalso. vm_compute in E. discriminate E.
Defined.

Lemma heatmask_ignores_detection_order_witness :
  heat_at (fst (HeatmapAnnotator.annotate (mk_heatmap None (1 # 5) 1 None None)
                  (solid 2 2 (0, 0, 0))
                  [boxed (0, 0, 1, 1); boxed (1, 1, 2, 2)])) 0 0
  = heat_at (fst (HeatmapAnnotator.annotate (mk_heatmap None (1 # 5) 1 None None)
                    (solid 2 2 (0, 0, 0))
                    [boxed (1, 1, 2, 2); boxed (0, 0, 1, 1); boxed (1, 1, 2, 2)])) 0 0.
Proof.
  apply (heatmask_ignores_detection_order (mk_heatmap None (1 # 5) 1 None None)
           (solid 2 2 (0, 0, 0))
           [boxed (0, 0, 1, 1); boxed (1, 1, 2, 2)]
           [boxed (1, 1, 2, 2); boxed (0, 0, 1, 1); boxed (1, 1, 2, 2)] 0 0).
  intros d. simpl. tauto.
Defined.

Lemma heatmask_ignores_frame_order_witness :
  heat_at (feed (mk_heatmap None (1 # 5) 1 None None)
             [(solid 2 2 (0, 0, 0), [boxed (0, 0, 1, 1)]); (solid 2 2 (0, 0, 0), [])]) 0 0
  = heat_at (feed (mk_heatmap None (1 # 5) 1 None None)
               [(solid 2 2 (0, 0, 0), []); (solid 2 2 (0, 0, 0), [boxed (0, 0, 1, 1)])]) 0 0.
Proof.
  apply (heatmask_ignores_frame_order (mk_heatmap None (1 # 5) 1 None None) _ _ (2, 2)%nat).
  - intros h Hh. discriminate Hh.
  - simpl. lia.
  - repeat constructor.
  - apply perm_swap.
  - simpl. lia.
  - simpl. lia.
Defined.

Lemma heatmask_bounded_by_frames_witness :
  heat_at (feed (mk_heatmap None (1 # 5) 1 None None)
             [(solid 2 2 (0, 0, 0), [boxed (0, 0, 1, 1)]);
              (solid 2 2 (0, 0, 0), [boxed (0, 0, 1, 1)])]) 0 0
  <= heat_at (mk_heatmap None (1 # 5) 1 None None) 0 0 + Z.of_nat 2.
Proof.
  apply (heatmask_bounded_by_frames (mk_heatmap None (1 # 5) 1 None None)
           [(solid 2 2 (0, 0, 0), [boxed (0, 0, 1, 1)]);
            (solid 2 2 (0, 0, 0), [boxed (0, 0, 1, 1)])] (2, 2)%nat 0 0).
  - intros h Hh. discriminate Hh.
  - repeat constructor.
  - simpl. lia.
  - simpl. lia.
Defined.


Lemma heatmap_empty_frame_raises_witness :
  snd (HeatmapAnnotator.annotate (mk_heatmap None (1 # 5) 1 None None)
         (solid 0 3 (0, 0, 0)) [])
  = Raise ValueError.
Proof.
  apply heatmap_empty_frame_raises.
  - reflexivity.
  - left. reflexivity.
Defined.





Lemma corner_strokes_flat_box_witness :
  In ((5, 8), (8, 8)) (BoxCornerAnnotator.strokes (5, 0, 5, 8) 3)
  /\ fst (snd ((5, 8), (8, 8))) = 5 + 3.
Proof.
  assert (Hin : In ((5, 8), (8, 8)) (BoxCornerAnnotator.strokes (5, 0, 5, 8) 3)).
  { simpl. auto 10. }
  split; [exact Hin |].
  apply (corner_strokes_flat_box 5 0 8 3 ((5, 8), (8, 8)) Hin); [reflexivity | lia].
Defined.


Lemma blur_leaves_outside_untouched_witness :
  exists scene' : Scene,
    BlurAnnotator.annotate 1 (solid 3 3 (5, 5, 5)) [boxed (0, 0, 2, 2)] = Ok scene'
    /\ shape scene' = shape (solid 3 3 (5, 5, 5)).
Proof.
  destruct (BlurAnnotator.annotate 1 (solid 3 3 (5, 5, 5)) [boxed (0, 0, 2, 2)])
    as [sc | e] eqn:E.
  - exists sc. split; [reflexivity |].
    apply (blur_leaves_outside_untouched 1 (solid 3 3 (5, 5, 5)) sc [boxed (0, 0, 2, 2)]).
    + repeat constructor; simpl; lia.
    + exact E.
  - exfalso. vm_compute in E. discriminate E.
Defined.


Lemma keypoints_rejection_kinds_witness :
  Keypoints.new [3]%nat None = Raise TypeError
  /\ (TypeError = TypeError <-> [3]%nat = [] \/ exists n, [3]%nat = [S n]).
Proof.
  split; [reflexivity |].
  exact (proj1 (keypoints_rejection_kinds [3]%nat None TypeError eq_refl)).
Defined.

Lemma from_mediapipe_result_witness :
  exists k : Keypoints,
    from_mediapipe [[mk_landmark 0 0 0 1; mk_landmark 1 1 0 1]] = Ok k.
Proof.
  apply (proj1 (proj2 (from_mediapipe_result
                         [[mk_landmark 0 0 0 1; mk_landmark 1 1 0 1]])) 2%nat).
  - lia.
  - discriminate.
  - repeat constructor.
Defined.

Lemma trace_position_ignored_witness :
  exists a1 a2 : TraceAnnotator,
    TraceAnnotator.__init__ (0, 0, 255) (Some CENTER) 30 2 "class" = Ok a1
    /\ TraceAnnotator.__init__ (0, 0, 255) (Some BOTTOM_LEFT) 30 2 "class" = Ok a2
    /\ trace (trace_feed a1 [(solid 2 2 (0, 0, 0), [tracked (0, 0, 4, 4) 7])])
       = trace (trace_feed a2 [(solid 2 2 (0, 0, 0), [tracked (0, 0, 4, 4) 7])]).
Proof.
  eexists. eexists. split; [reflexivity |]. split; [reflexivity |].
  refine (proj1 (trace_position_ignored (0, 0, 255) (Some CENTER) (Some BOTTOM_LEFT)
                   30 2 "class" _ _ [(solid 2 2 (0, 0, 0), [tracked (0, 0, 4, 4) 7])]
                   (solid 2 2 (0, 0, 0)) [] eq_refl eq_refl)).
Defined.

Lemma mask_leaves_outside_untouched_witness :
  exists scene' : Scene,
    MaskAnnotator.annotate (mk_mask_annotator (C := colours) (0, 0, 255) (1 # 2) CLASS)
      (solid 1 2 (9, 9, 9)) [boxed (0, 0, 1, 1)]
      (Some [mk_ndarray 1 2 (fun i j => (j =? 0)%nat)]) [1%Q] = Ok scene'
    /\ shape scene' = shape (solid 1 2 (9, 9, 9)).
Proof.
  destruct (MaskAnnotator.annotate (mk_mask_annotator (C := colours) (0, 0, 255) (1 # 2) CLASS)
              (solid 1 2 (9, 9, 9)) [boxed (0, 0, 1, 1)]
              (Some [mk_ndarray 1 2 (fun i j => (j =? 0)%nat)]) [1%Q])
    as [sc | e] eqn:E.
  - exists sc. split; [reflexivity |].
    apply (@mask_leaves_outside_untouched sorting colours
             (mk_mask_annotator (C := colours) (0, 0, 255) (1 # 2) CLASS)
             (solid 1 2 (9, 9, 9)) sc [boxed (0, 0, 1, 1)]
             [mk_ndarray 1 2 (fun i j => (j =? 0)%nat)] [1%Q]).
    + repeat constructor.
    + exact E.
  - exfalso. vm_compute in E. discriminate E.
Defined.
